(** * Cable tester firmware: the capacitance meter (capacitance.h)

    A shallow embedding of [src/arduino/cable_tester/capacitance.h] and the
    properties of its RC charge-time measurement.

    Modelling decisions, all visible in the definitions below:
    - [unsigned long] is a 32-bit unsigned integer: a [Z] reduced by
      [wrap32] after every addition and subtraction;
    - [float] arithmetic is exact rational arithmetic ([Q]); the rounding of
      the target's binary floating point is left out of the main model, and
      module [Ieee] re-runs [calculateCapacitance] in IEEE 754 arithmetic at
      the concrete charge times the results below depend on;
    - the board (pin directions, pin levels, serial port) is explicit state,
      and the outside world (the microsecond clock, the ADC, the relay reset
      routine of the main sketch) is an oracle carried by that state;
    - the polling loop of [measureChargeTime] may run for as long as the
      outside world lets it, so it takes a bound on its iterations and
      returns [None] when the bound is reached. *)

From Stdlib Require Import ZArith QArith Qminmax List String Bool Lia.
From Stdlib Require Import Floats.SpecFloat.
From Stdlib Require Import Sorting.Permutation.
Import ListNotations.

Local Open Scope Z_scope.

(** ** The board and the outside world *)

Module Arduino.

(** The logical pins the capacitance module addresses. *)
Inductive Pin : Set :=
| CAP_CHARGE_PIN          (* D7: charges the cable through 2.2 MOhm *)
| CAP_DISCHARGE_PIN       (* D8: discharges the cable through 1 kOhm *)
| CAP_SENSE_PIN           (* A1: analog sense *)
| K1_K2_RELAY_PIN
| K4_RELAY_PIN
| TS_CONT_OUT_SLEEVE_PIN
| TS_CONT_OUT_TIP_PIN.

Definition Pin_eq_dec (p q : Pin) : {p = q} + {p <> q}.
Proof. decide equality. Defined.

Inductive PinDir : Set := INPUT | OUTPUT.
Inductive Level : Set := LOW | HIGH.

(** What [Serial.print] is given: a string, a float with a number of
    decimals, an unsigned long or an int. *)
Inductive Printable : Type :=
| PStr (s : string)
| PFloat (x : Q) (decimals : Z)
| PULong (n : Z)
| PInt (n : Z).

(** Everything the firmware does to the board, in order. *)
Inductive Event : Type :=
| EvPinMode (p : Pin) (d : PinDir)
| EvWrite (p : Pin) (l : Level)
| EvDelay (ms : Z)
| EvMicros (now : Z)
| EvRead (p : Pin) (adc : Z)
| EvPrint (x : Printable)
| EvPrintln (x : Printable)
| EvReset.

Record Pins : Type := mkPins {
  dir : Pin -> PinDir;
  level : Pin -> Level
}.

(** The outside world: the successive values of the microsecond counter,
    the successive ADC conversions, and what [resetCircuit] (defined in
    the main sketch) does to the pins. *)
Record Env : Type := mkEnv {
  env_micros : nat -> Z;
  env_adc : nat -> Z;
  env_reset : Pins -> Pins
}.

Record World : Type := mkWorld {
  w_env : Env;
  w_pins : Pins;
  w_clk : nat;            (* clock readings consumed so far *)
  w_adc : nat;            (* ADC conversions consumed so far *)
  w_trace : list Event    (* most recent event first *)
}.

Definition wrap32 (z : Z) : Z := z mod 2 ^ 32.

Definition set_dir (p : Pin) (d : PinDir) (ps : Pins) : Pins :=
  mkPins (fun q => if Pin_eq_dec q p then d else dir ps q) (level ps).

Definition set_level (p : Pin) (l : Level) (ps : Pins) : Pins :=
  mkPins (dir ps) (fun q => if Pin_eq_dec q p then l else level ps q).

Definition log (e : Event) (w : World) : World :=
  mkWorld (w_env w) (w_pins w) (w_clk w) (w_adc w) (e :: w_trace w).

Definition with_pins (ps : Pins) (w : World) : World :=
  mkWorld (w_env w) ps (w_clk w) (w_adc w) (w_trace w).

(** Computations on the board: state passing, [None] when a loop bound is
    exhausted. *)
Definition M (A : Type) : Type := World -> option (A * World).

Definition ret {A : Type} (a : A) : M A := fun w => Some (a, w).

Definition bind {A B : Type} (m : M A) (k : A -> M B) : M B :=
  fun w => match m w with
           | Some (a, w') => k a w'
           | None => None
           end.

Definition pinMode (p : Pin) (d : PinDir) : M unit :=
  fun w => Some (tt, log (EvPinMode p d) (with_pins (set_dir p d (w_pins w)) w)).

Definition digitalWrite (p : Pin) (l : Level) : M unit :=
  fun w => Some (tt, log (EvWrite p l) (with_pins (set_level p l (w_pins w)) w)).

Definition delay (ms : Z) : M unit :=
  fun w => Some (tt, log (EvDelay ms) w).

(** [micros()]: the next value of the 32-bit microsecond counter. *)
Definition micros : M Z :=
  fun w =>
    let now := wrap32 (env_micros (w_env w) (w_clk w)) in
    Some (now, log (EvMicros now)
                 (mkWorld (w_env w) (w_pins w) (S (w_clk w)) (w_adc w) (w_trace w))).

(** [analogRead(pin)]: the next ADC conversion. *)
Definition analogRead (p : Pin) : M Z :=
  fun w =>
    let v := env_adc (w_env w) (w_adc w) in
    Some (v, log (EvRead p v)
               (mkWorld (w_env w) (w_pins w) (w_clk w) (S (w_adc w)) (w_trace w))).

Definition Serial_print (x : Printable) : M unit :=
  fun w => Some (tt, log (EvPrint x) w).

Definition Serial_println (x : Printable) : M unit :=
  fun w => Some (tt, log (EvPrintln x) w).

(** [resetCircuit()] is declared [extern] in capacitance.h; its effect on
    the pins is the oracle's [env_reset]. *)
Definition resetCircuit : M unit :=
  fun w => Some (tt, log EvReset (with_pins (env_reset (w_env w) (w_pins w)) w)).

End Arduino.

Import Arduino.

Declare Scope board_scope.
Delimit Scope board_scope with board.
Notation "x <- m ;; k" := (bind m (fun x => k))
  (at level 61, m at next level, right associativity) : board_scope.
Notation "m ;; k" := (bind m (fun _ => k))
  (at level 61, right associativity) : board_scope.
Local Open Scope board_scope.

(** ** capacitance.h *)

(** Circuit constants. *)
Definition CAP_CHARGE_RESISTOR : Q := 2200000.0.
Definition CAP_DISCHARGE_RESISTOR : Q := 1000.0.

(** Measurement parameters. *)
Definition CAP_THRESHOLD_PERCENT : Z := 50.
Definition CAP_ADC_THRESHOLD : Z := 512.
Definition CAP_TIMEOUT_US : Z := 100000.
Definition CAP_DISCHARGE_TIME_MS : Z := 10.
Definition CAP_NUM_SAMPLES : Z := 5.

(** Calibration. *)
Definition CAP_STRAY_PF : Q := 20.0.

Record CapacitanceResult : Type := mkResult {
  valid : bool;
  capacitance_pf : Q;
  charge_time_us : Z;
  num_samples : Z
}.

Definition setupCapacitancePins : M unit :=
  pinMode CAP_CHARGE_PIN OUTPUT ;;
  pinMode CAP_DISCHARGE_PIN OUTPUT ;;
  digitalWrite CAP_CHARGE_PIN LOW ;;
  digitalWrite CAP_DISCHARGE_PIN LOW.

Definition dischargeCable : M unit :=
  digitalWrite CAP_CHARGE_PIN LOW ;;
  digitalWrite CAP_DISCHARGE_PIN LOW ;;
  delay CAP_DISCHARGE_TIME_MS.

(** [while (micros() < timeout) { ... }] followed by the timeout exit of
    [measureChargeTime]; [fuel] bounds the number of turns. *)
Fixpoint pollLoop (fuel : nat) (startTime timeout : Z) : M Z :=
  match fuel with
  | O => fun _ => None
  | S fuel' =>
      now <- micros ;;
      if now <? timeout then
        adcValue <- analogRead CAP_SENSE_PIN ;;
        if adcValue >=? CAP_ADC_THRESHOLD then
          now' <- micros ;;
          let chargeTime := wrap32 (now' - startTime) in
          digitalWrite CAP_CHARGE_PIN LOW ;;
          pinMode CAP_DISCHARGE_PIN OUTPUT ;;
          digitalWrite CAP_DISCHARGE_PIN LOW ;;
          ret chargeTime
        else pollLoop fuel' startTime timeout
      else
        digitalWrite CAP_CHARGE_PIN LOW ;;
        pinMode CAP_DISCHARGE_PIN OUTPUT ;;
        digitalWrite CAP_DISCHARGE_PIN LOW ;;
        ret 0
  end.

Definition measureChargeTime (fuel : nat) : M Z :=
  dischargeCable ;;
  pinMode CAP_DISCHARGE_PIN INPUT ;;
  startTime <- micros ;;
  digitalWrite CAP_CHARGE_PIN HIGH ;;
  let timeout := wrap32 (startTime + CAP_TIMEOUT_US) in
  pollLoop fuel startTime timeout.

Definition Qltb (x y : Q) : bool := negb (Qle_bool y x).

Definition calculateCapacitance (chargeTimeUs : Z) : Q :=
  if chargeTimeUs =? 0 then 0%Q
  else
    let timeSeconds := (inject_Z chargeTimeUs / 1000000.0)%Q in
    let capacitanceFarads := (timeSeconds / (CAP_CHARGE_RESISTOR * 0.693))%Q in
    let capacitancePf := (capacitanceFarads * 1e12)%Q in
    let capacitancePf := (capacitancePf - CAP_STRAY_PF)%Q in
    if Qltb capacitancePf 0 then 0%Q else capacitancePf.

(** One turn of the [for] loop body's bookkeeping. *)
Definition accumulate (chargeTime : Z) (acc : Z * Z) : Z * Z :=
  let '(totalTime, validSamples) := acc in
  if chargeTime >? 0 then (wrap32 (totalTime + chargeTime), validSamples + 1)
  else (totalTime, validSamples).

(** [for (int i = 0; i < CAP_NUM_SAMPLES; i++)], with [n] turns left. *)
Fixpoint sampleLoop (fuel n : nat) (acc : Z * Z) : M (Z * Z) :=
  match n with
  | O => ret acc
  | S n' =>
      chargeTime <- measureChargeTime fuel ;;
      let acc' := accumulate chargeTime acc in
      delay 10 ;;
      sampleLoop fuel n' acc'
  end.

Definition measureCapacitance (fuel : nat) : M CapacitanceResult :=
  let result := mkResult false 0 0 0 in
  acc <- sampleLoop fuel (Z.to_nat CAP_NUM_SAMPLES) (0, 0) ;;
  let '(totalTime, validSamples) := acc in
  if validSamples >? 0 then
    let charge_time := totalTime / validSamples in
    ret (mkResult true (calculateCapacitance charge_time) charge_time validSamples)
  else ret result.

(** [result.capacitance_pf >= 50 && result.capacitance_pf <= 2000] *)
Definition inRangePf (c : Q) : bool := Qle_bool 50 c && Qle_bool c 2000.

Definition runCapacitanceTest (fuel : nat) : M bool :=
  digitalWrite K1_K2_RELAY_PIN HIGH ;;
  digitalWrite K4_RELAY_PIN LOW ;;
  pinMode TS_CONT_OUT_SLEEVE_PIN INPUT ;;
  pinMode TS_CONT_OUT_TIP_PIN INPUT ;;
  delay 20 ;;
  result <- measureCapacitance fuel ;;
  pinMode TS_CONT_OUT_SLEEVE_PIN OUTPUT ;;
  digitalWrite TS_CONT_OUT_SLEEVE_PIN LOW ;;
  pinMode TS_CONT_OUT_TIP_PIN OUTPUT ;;
  digitalWrite TS_CONT_OUT_TIP_PIN LOW ;;
  resetCircuit ;;
  if negb (valid result) then
    Serial_println (PStr "CAP:FAIL:TIMEOUT:No charge detected") ;;
    ret false
  else
    let inRange := inRangePf (capacitance_pf result) in
    Serial_print (PStr "CAP:") ;;
    Serial_print (PStr (if inRange then "PASS" else "WARN")) ;;
    Serial_print (PStr ":PF:") ;;
    Serial_print (PFloat (capacitance_pf result) 1) ;;
    Serial_print (PStr ":TIME_US:") ;;
    Serial_print (PULong (charge_time_us result)) ;;
    Serial_print (PStr ":SAMPLES:") ;;
    Serial_println (PInt (num_samples result)) ;;
    ret inRange.

Definition calibrateStrayCapacitance (fuel : nat) : M unit :=
  Serial_println (PStr "CAP_CAL:Starting stray capacitance calibration") ;;
  Serial_println (PStr "CAP_CAL:Ensure NO cable is connected") ;;
  delay 2000 ;;
  digitalWrite K1_K2_RELAY_PIN HIGH ;;
  digitalWrite K4_RELAY_PIN LOW ;;
  pinMode TS_CONT_OUT_SLEEVE_PIN INPUT ;;
  pinMode TS_CONT_OUT_TIP_PIN INPUT ;;
  delay 20 ;;
  result <- measureCapacitance fuel ;;
  pinMode TS_CONT_OUT_SLEEVE_PIN OUTPUT ;;
  digitalWrite TS_CONT_OUT_SLEEVE_PIN LOW ;;
  pinMode TS_CONT_OUT_TIP_PIN OUTPUT ;;
  digitalWrite TS_CONT_OUT_TIP_PIN LOW ;;
  resetCircuit ;;
  if valid result then
    let rawPf := (capacitance_pf result + CAP_STRAY_PF)%Q in
    Serial_print (PStr "CAP_CAL:Measured stray capacitance: ") ;;
    Serial_print (PFloat rawPf 1) ;;
    Serial_println (PStr " pF") ;;
    Serial_print (PStr "CAP_CAL:Update CAP_STRAY_PF to ") ;;
    Serial_print (PFloat rawPf 0) ;;
    Serial_println (PStr " in capacitance.h")
  else
    Serial_println (PStr "CAP_CAL:FAILED - Could not measure").

(** ** Observations on a run *)

(** The world a computation ends in (the world it started in when its
    loop bound is exhausted). *)
Definition after {A : Type} (m : M A) (w : World) : World :=
  match m w with
  | Some (_, w') => w'
  | None => w
  end.

(** The relay and pin configuration [runCapacitanceTest] and
    [calibrateStrayCapacitance] establish before measuring. *)
Definition enterCapMode : M unit :=
  digitalWrite K1_K2_RELAY_PIN HIGH ;;
  digitalWrite K4_RELAY_PIN LOW ;;
  pinMode TS_CONT_OUT_SLEEVE_PIN INPUT ;;
  pinMode TS_CONT_OUT_TIP_PIN INPUT ;;
  delay 20.

(** The statements they both execute right after measuring. *)
Definition leaveCapMode : M unit :=
  pinMode TS_CONT_OUT_SLEEVE_PIN OUTPUT ;;
  digitalWrite TS_CONT_OUT_SLEEVE_PIN LOW ;;
  pinMode TS_CONT_OUT_TIP_PIN OUTPUT ;;
  digitalWrite TS_CONT_OUT_TIP_PIN LOW ;;
  resetCircuit.

(** The events with which every [measureChargeTime] call starts, most
    recent first: discharge, release the discharge pin, take the start
    timestamp, start charging. *)
Definition chargeStartEvents (startTime : Z) : list Event :=
  [ EvWrite CAP_CHARGE_PIN HIGH;
    EvMicros startTime;
    EvPinMode CAP_DISCHARGE_PIN INPUT;
    EvDelay CAP_DISCHARGE_TIME_MS;
    EvWrite CAP_DISCHARGE_PIN LOW;
    EvWrite CAP_CHARGE_PIN LOW ].

(** The events with which every [measureChargeTime] call ends. *)
Definition stopEvents : list Event :=
  [ EvWrite CAP_DISCHARGE_PIN LOW;
    EvPinMode CAP_DISCHARGE_PIN OUTPUT;
    EvWrite CAP_CHARGE_PIN LOW ].

Definition isReport (e : Event) : bool :=
  match e with
  | EvPrint _ | EvPrintln _ => true
  | _ => false
  end.

Definition isChargeStart (e : Event) : bool :=
  match e with
  | EvWrite CAP_CHARGE_PIN HIGH => true
  | _ => false
  end.

(** Events of the measurement proper: neither serial output nor a reset. *)
Definition isQuiet (e : Event) : bool :=
  match e with
  | EvPrint _ | EvPrintln _ | EvReset => false
  | _ => true
  end.

Definition chargeStarts (tr : list Event) : nat :=
  List.length (filter isChargeStart tr).

(** The capacitance pins as the module leaves them when it is not
    measuring. *)
Definition capPinsIdle (ps : Pins) : Prop :=
  level ps CAP_CHARGE_PIN = LOW /\
  dir ps CAP_DISCHARGE_PIN = OUTPUT /\
  level ps CAP_DISCHARGE_PIN = LOW.

(** The continuity output pins driving low. *)
Definition contPinsIdle (ps : Pins) : Prop :=
  dir ps TS_CONT_OUT_SLEEVE_PIN = OUTPUT /\
  level ps TS_CONT_OUT_SLEEVE_PIN = LOW /\
  dir ps TS_CONT_OUT_TIP_PIN = OUTPUT /\
  level ps TS_CONT_OUT_TIP_PIN = LOW.

(** The charge times of [n] successive measurement cycles, each followed
    by the 10 ms pause of [measureCapacitance]. *)
Fixpoint chargeTimes (fuel n : nat) : M (list Z) :=
  match n with
  | O => ret []
  | S n' =>
      chargeTime <- measureChargeTime fuel ;;
      delay 10 ;;
      rest <- chargeTimes fuel n' ;;
      ret (chargeTime :: rest)
  end.

(** The poll loop finds neither the deadline nor the threshold in its
    first [k] turns, started with clock cursor [c] and ADC cursor [a]. *)
Definition pollsBelow (e : Env) (c a : nat) (timeout : Z) (k : nat) : Prop :=
  forall j, (j < k)%nat ->
    wrap32 (env_micros e (c + j)) < timeout /\
    env_adc e (a + j) < CAP_ADC_THRESHOLD.

(** ** The specification's wording *)

Definition sumZ (ts : list Z) : Z := fold_right Z.add 0 ts.

(** Samples that did not time out. *)
Definition validTimes (ts : list Z) : list Z :=
  filter (fun t => negb (t =? 0)) ts.

(** Raw capacitance in picofarads: t / (R * 0.693), t in seconds, times
    1e12. *)
Definition rawCapacitancePf (t : Z) : Q :=
  ((inject_Z t / 1000000) / (2200000 * 0.693) * 1e12)%Q.

(** max(0, raw - stray offset). *)
Definition correctedCapacitancePf (t : Z) : Q :=
  Qmax 0 (rawCapacitancePf t - 20.0)%Q.

(** Discard the timed-out samples, average the remaining charge times,
    derive the capacitance once from the averaged time. *)
Definition averagedResult (ts : list Z) : CapacitanceResult :=
  match validTimes ts with
  | [] => mkResult false 0 0 0
  | good =>
      let mean := sumZ good / Z.of_nat (List.length good) in
      mkResult true (calculateCapacitance mean) mean (Z.of_nat (List.length good))
  end.

(** The alternative the specification rules out: the mean of the
    per-sample capacitances. *)
Definition meanOfCapacitances (ts : list Z) : Q :=
  (fold_right Qplus 0 (map calculateCapacitance (validTimes ts))
   / inject_Z (Z.of_nat (List.length (validTimes ts))))%Q.

(** The microseconds elapsed on the 32-bit clock since [startTime]:
    [micros() - startTime]. *)
Definition elapsedUs (startTime now : Z) : Z := wrap32 (now - startTime).

(** ** Concrete boards *)

(** Modelled from the spec: [resetCircuit()] lives in the main sketch,
    which is not part of the sources.  The specification's reset returns to
    the idle topology: all test relays off and the continuity sense pins
    output-low. *)
Definition idleReset (ps : Pins) : Pins :=
  set_level K1_K2_RELAY_PIN LOW
    (set_level K4_RELAY_PIN LOW
       (set_level TS_CONT_OUT_SLEEVE_PIN LOW
          (set_dir TS_CONT_OUT_SLEEVE_PIN OUTPUT
             (set_level TS_CONT_OUT_TIP_PIN LOW
                (set_dir TS_CONT_OUT_TIP_PIN OUTPUT ps))))).

(** The idle topology on the pins of this module: both relays off, the
    continuity pins and the capacitance pins idle. *)
Definition idleTopology (ps : Pins) : Prop :=
  level ps K1_K2_RELAY_PIN = LOW /\
  level ps K4_RELAY_PIN = LOW /\
  contPinsIdle ps /\
  capPinsIdle ps.

(** The pins after [setup()]: everything an output, driving low. *)
Definition bootPins : Pins := mkPins (fun _ => OUTPUT) (fun _ => LOW).

(** A board whose clock and ADC follow two scripts. *)
Definition scripted (clock adc : list Z) : World :=
  mkWorld (mkEnv (fun n => nth n clock 0) (fun n => nth n adc 0) idleReset)
          bootPins 0 0 [].

(** A board whose clock and ADC follow two functions of the reading
    number. *)
Definition driven (clock adc : nat -> Z) : World :=
  mkWorld (mkEnv clock adc idleReset) bootPins 0 0 [].

(** Open circuit: the sense pin never rises; the clock is read once every
    200 ms, so every cycle times out at its first deadline test. *)
Definition openCircuit : World :=
  driven (fun n => 200000 * Z.of_nat n) (fun _ => 0).

(** Every cycle crosses the threshold at its first sample, [t]
    microseconds after its start (three clock readings per cycle). *)
Definition crossingAfter (t : Z) : World :=
  driven (fun n =>
            let cycle := Z.of_nat (n / 3) in
            match (n mod 3)%nat with
            | 0%nat => 50000 * cycle
            | 1%nat => 50000 * cycle + 4
            | _ => 50000 * cycle + t
            end)
         (fun _ => 600).

(** Three good cycles of 3000, 3102 and 3098 microseconds and two cycles
    that time out after two samples each. *)
Definition mixedSamples : World :=
  scripted
    [ 1000; 1100; 4000;
      20000; 20100; 20200; 130000;
      200000; 200100; 203102;
      300000; 300100; 300200; 400000;
      500000; 500100; 503098 ]
    [ 600; 100; 200; 700; 10; 20; 800 ].

(** The start timestamp falls 50 ms before the 32-bit clock wraps; the
    cable is already above the threshold at every sample. *)
Definition nearWrap : World :=
  driven (fun n => nth n [ 2 ^ 32 - 50000; 2 ^ 32 - 49992 ] 0) (fun _ => 1023).

(** The start timestamp is taken 2 microseconds before the clock wraps and
    the first deadline test reads the clock 4 microseconds later. *)
Definition acrossWrap : World :=
  scripted [ 2 ^ 32 - 2; 2 ^ 32 + 2; 2 ^ 32 + 114 ] [ 600 ].

(** The threshold is already reached at the first sample and the clock
    has not ticked since the start timestamp. *)
Definition instantCrossing : World :=
  scripted [ 1000; 1000; 1000 ] [ 600 ].

(** ** Predicates used in the statements *)

(** Clock readings and conversions of the sense pin: what the poll loop
    adds to the trace. *)
Definition isPoll (e : Event) : bool :=
  match e with
  | EvMicros _ | EvRead CAP_SENSE_PIN _ => true
  | _ => false
  end.

(** [w'] is [w] after a measurement that started charging [starts] times:
    same outside world, and only quiet events added. *)
Definition measured (starts : nat) (w w' : World) : Prop :=
  w_env w' = w_env w /\
  exists added,
    w_trace w' = added ++ w_trace w /\
    forallb isQuiet added = true /\
    chargeStarts added = starts.

(** A 32-bit unsigned value. *)
Definition u32 (z : Z) : Prop := 0 <= z < 2 ^ 32.

(** What [runCapacitanceTest] returns for a measurement result. *)
Definition testVerdict (result : CapacitanceResult) : bool :=
  if negb (valid result) then false else inRangePf (capacitance_pf result).

(** What [runCapacitanceTest] prints for a measurement result, most recent
    first. *)
Definition reportEvents (result : CapacitanceResult) : list Event :=
  if negb (valid result) then
    [ EvPrintln (PStr "CAP:FAIL:TIMEOUT:No charge detected") ]
  else
    [ EvPrintln (PInt (num_samples result));
      EvPrint (PStr ":SAMPLES:");
      EvPrint (PULong (charge_time_us result));
      EvPrint (PStr ":TIME_US:");
      EvPrint (PFloat (capacitance_pf result) 1);
      EvPrint (PStr ":PF:");
      EvPrint (PStr (if inRangePf (capacitance_pf result) then "PASS" else "WARN"));
      EvPrint (PStr "CAP:") ].

(** What [calibrateStrayCapacitance] prints for a measurement result, most
    recent first. *)
Definition calibrationEvents (result : CapacitanceResult) : list Event :=
  if valid result then
    [ EvPrintln (PStr " in capacitance.h");
      EvPrint (PFloat (capacitance_pf result + CAP_STRAY_PF) 0);
      EvPrint (PStr "CAP_CAL:Update CAP_STRAY_PF to ");
      EvPrintln (PStr " pF");
      EvPrint (PFloat (capacitance_pf result + CAP_STRAY_PF) 1);
      EvPrint (PStr "CAP_CAL:Measured stray capacitance: ") ]
  else
    [ EvPrintln (PStr "CAP_CAL:FAILED - Could not measure") ].

(** The stray capacitance value a calibration run emits. *)
Definition emittedStrayPf (result : CapacitanceResult) : Q :=
  (capacitance_pf result + CAP_STRAY_PF)%Q.

(** The world with [evs] appended to the trace. *)
Definition logged (evs : list Event) (w : World) : World :=
  mkWorld (w_env w) (w_pins w) (w_clk w) (w_adc w) (evs ++ w_trace w).

(** The result [measureCapacitance] computes from the charge times of its
    cycles: the closed form of its bookkeeping. *)
Definition resultOf (ts : list Z) : CapacitanceResult :=
  let totalTime := wrap32 (sumZ (validTimes ts)) in
  let validSamples := Z.of_nat (List.length (validTimes ts)) in
  if validSamples >? 0 then
    mkResult true (calculateCapacitance (totalTime / validSamples))
             (totalTime / validSamples) validSamples
  else mkResult false 0 0 0.

(** Every measurement cycle ends within [fuel] turns of its poll loop:
    whatever the clock reading [c] its start timestamp is and the next
    conversion [a], the clock reaches the deadline or the sense pin the
    threshold. *)
Definition cyclesEnd (e : Env) (fuel : nat) : Prop :=
  forall c a : nat,
  exists k,
    (k < fuel)%nat /\
    (wrap32 (wrap32 (env_micros e c) + CAP_TIMEOUT_US)
       <= wrap32 (env_micros e (S c + k)) \/
     CAP_ADC_THRESHOLD <= env_adc e (a + k)).

(** ** calculateCapacitance in IEEE 754 arithmetic *)

(** [float] is binary32.  [double], the type of the literals and so of
    every intermediate operation, is binary32 on the AVR boards (precision
    24, exponent bound 128) and binary64 elsewhere (53, 1024); each
    assignment to a [float] variable rounds to binary32. *)
Module Ieee.
Section Double.
Variables dprec demax : Z.

Definition fprec : Z := 24.
Definition femax : Z := 128.

Definition ofZ (prec emax n : Z) : spec_float :=
  binary_normalize prec emax n 0 false.

Definition cast (prec emax : Z) (x : spec_float) : spec_float :=
  match x with
  | S754_finite s m e => binary_normalize prec emax (cond_Zopp s (Zpos m)) e s
  | _ => x
  end.

Definition toDouble : spec_float -> spec_float := cast dprec demax.
Definition toFloat : spec_float -> spec_float := cast fprec femax.

(** The [double] nearest to the decimal literal [num/den]. *)
Definition literal (num den : Z) : spec_float :=
  SFdiv dprec demax (ofZ dprec demax num) (ofZ dprec demax den).

Definition CAP_CHARGE_RESISTOR : spec_float := literal 2200000 1.
Definition CAP_STRAY_PF : spec_float := literal 200 10.

Definition calculateCapacitance (chargeTimeUs : Z) : spec_float :=
  if chargeTimeUs =? 0 then toFloat (literal 0 1)
  else
    let timeSeconds :=
      toFloat (SFdiv dprec demax (ofZ dprec demax chargeTimeUs)
                     (literal 1000000 1)) in
    let capacitanceFarads :=
      toFloat (SFdiv dprec demax (toDouble timeSeconds)
                     (SFmul dprec demax CAP_CHARGE_RESISTOR (literal 693 1000))) in
    let capacitancePf :=
      toFloat (SFmul dprec demax (toDouble capacitanceFarads)
                     (ofZ dprec demax (10 ^ 12))) in
    let capacitancePf :=
      toFloat (SFsub dprec demax (toDouble capacitancePf) CAP_STRAY_PF) in
    if SFltb capacitancePf (ofZ fprec femax 0) then ofZ fprec femax 0
    else capacitancePf.

(** [result.capacitance_pf >= 50 && result.capacitance_pf <= 2000] *)
Definition inRangePf (c : spec_float) : bool :=
  SFleb (ofZ fprec femax 50) c && SFleb c (ofZ fprec femax 2000).

(** [float rawPf = result.capacitance_pf + CAP_STRAY_PF] *)
Definition rawPf (c : spec_float) : spec_float :=
  toFloat (SFadd dprec demax (toDouble c) CAP_STRAY_PF).

End Double.
End Ieee.

(** ** More observations *)

(** Two worlds offer the same future: the same outside world, read up to
    the same point. *)
Definition sameOracle (w1 w2 : World) : Prop :=
  w_env w1 = w_env w2 /\ w_clk w1 = w_clk w2 /\ w_adc w1 = w_adc w2.

(** The relay and continuity-pin configuration of the capacitance mode:
    far end on the continuity pins, tip on the capacitance circuit, both
    continuity pins floating. *)
Definition capModePins (ps : Pins) : Prop :=
  level ps K1_K2_RELAY_PIN = HIGH /\
  level ps K4_RELAY_PIN = LOW /\
  dir ps TS_CONT_OUT_SLEEVE_PIN = INPUT /\
  dir ps TS_CONT_OUT_TIP_PIN = INPUT.

(** From [ps] to [ps'] only the direction of the discharge pin and the
    levels of the charge and discharge pins may differ. *)
Definition onlyCapPinsChanged (ps ps' : Pins) : Prop :=
  (forall p, p <> CAP_DISCHARGE_PIN -> dir ps' p = dir ps p) /\
  (forall p, p <> CAP_CHARGE_PIN -> p <> CAP_DISCHARGE_PIN ->
             level ps' p = level ps p).

Definition isPrintln (e : Event) : bool :=
  match e with
  | EvPrintln _ => true
  | _ => false
  end.

(** The number of lines completed on the serial port. *)
Definition printlns (tr : list Event) : nat :=
  List.length (filter isPrintln tr).

(** One microsecond of charge time, in picofarads: 1e6 / (2200000 * 0.693). *)
Definition pfPerMicrosecond : Q := 10000 # 15246.

(** ** The trace of the sampling loop *)

(** [added] is the trace of [n] measurement cycles, most recent first:
    each cycle discharges and starts charging ([chargeStartEvents]), polls,
    stops ([stopEvents]) and is followed by the 10 ms pause. *)
Fixpoint cycleEvents (n : nat) (added : list Event) : Prop :=
  match n with
  | O => added = []
  | S n' =>
      exists startTime polls later,
        added = later ++ EvDelay 10 :: stopEvents ++ polls
                      ++ chargeStartEvents startTime /\
        forallb isPoll polls = true /\
        cycleEvents n' later
  end.

(** Two cycles whose conversion reaches the threshold 2^32 - 100
    microseconds after the start timestamp (the clock has wrapped once in
    between), then three cycles that time out 100 ms after their start. *)
Definition wrappingSum : World :=
  scripted
    [ 100; 104; 2 ^ 32;
      2 ^ 32 + 20100; 2 ^ 32 + 20104; 2 * 2 ^ 32 + 20000;
      2 * 2 ^ 32 + 40100; 2 * 2 ^ 32 + 140200;
      2 * 2 ^ 32 + 160300; 2 * 2 ^ 32 + 260400;
      2 * 2 ^ 32 + 280500; 2 * 2 ^ 32 + 380600 ]
    [ 600; 600 ].

(** The world once [calibrateStrayCapacitance] has printed its two
    announcement lines and waited 2 s. *)
Definition announced (w : World) : World :=
  logged [ EvDelay 2000;
           EvPrintln (PStr "CAP_CAL:Ensure NO cable is connected");
           EvPrintln (PStr "CAP_CAL:Starting stray capacitance calibration") ]
         w.

(** ** IEEE results as numbers *)





(** ** Basic facts *)

Lemma wrap32_range (z : Z) : u32 (wrap32 z).
Proof. unfold u32, wrap32. apply Z.mod_pos_bound. reflexivity. Qed.

Lemma wrap32_small (z : Z) : u32 z -> wrap32 z = z.
Proof. unfold u32, wrap32. intros H. apply Z.mod_small. exact H. Qed.

Lemma poll_is_quiet (l : list Event) :
  forallb isPoll l = true -> forallb isQuiet l = true.
Proof.
  induction l as [|e l IH]; simpl; [reflexivity|].
  intros H. apply andb_true_iff in H. destruct H as [He Hl].
  rewrite (IH Hl), andb_true_r.
  destruct e; try discriminate; reflexivity.
Qed.

Lemma poll_no_chargeStart (l : list Event) :
  forallb isPoll l = true -> chargeStarts l = 0%nat.
Proof.
  unfold chargeStarts.
  induction l as [|e l IH]; simpl; [reflexivity|].
  intros H. apply andb_true_iff in H. destruct H as [He Hl].
  destruct e; try discriminate; simpl; auto.
Qed.

Lemma chargeStarts_app (l1 l2 : list Event) :
  chargeStarts (l1 ++ l2) = (chargeStarts l1 + chargeStarts l2)%nat.
Proof. unfold chargeStarts. rewrite filter_app, length_app. reflexivity. Qed.

(** ** The poll loop *)

(** Whatever the outside world does, a poll loop that ends leaves the
    capacitance pins idle, has only polled in between, and returns a 32-bit
    value. *)
Lemma pollLoop_post (fuel : nat) :
  forall (s t : Z) (w : World) (r : Z) (w' : World),
    pollLoop fuel s t w = Some (r, w') ->
    w_env w' = w_env w /\
    capPinsIdle (w_pins w') /\
    u32 r /\
    exists polls,
      w_trace w' = stopEvents ++ polls ++ w_trace w /\
      forallb isPoll polls = true.
Proof.
  induction fuel as [|fuel IH]; intros s t w r w' H; [discriminate|].
  cbn in H.
  destruct (wrap32 (env_micros (w_env w) (w_clk w)) <? t) eqn:Hdl.
  - cbn in H.
    destruct (env_adc (w_env w) (w_adc w) >=? CAP_ADC_THRESHOLD) eqn:Hth.
    + cbn in H. inversion H; subst; clear H. cbn.
      repeat split; try apply wrap32_range.
      eexists [_; _; _]. split; reflexivity.
    + apply IH in H. cbn in H.
      destruct H as (He & Hp & Hr & polls & Htr & Hpolls).
      repeat split; try assumption; try apply Hp; try apply Hr.
      exists (polls ++ [EvRead CAP_SENSE_PIN (env_adc (w_env w) (w_adc w));
                        EvMicros (wrap32 (env_micros (w_env w) (w_clk w)))]).
      split.
      * rewrite Htr, <- app_assoc. reflexivity.
      * rewrite forallb_app, Hpolls. reflexivity.
  - cbn in H. inversion H; subst; clear H. cbn.
    repeat split; try (unfold u32; lia).
    exists [EvMicros (wrap32 (env_micros (w_env w) (w_clk w)))].
    split; reflexivity.
Qed.

(** More fuel never changes the outcome of a poll loop that ended. *)
Lemma pollLoop_fuel_mono (fuel : nat) :
  forall (s t : Z) (w : World) (out : Z * World) (extra : nat),
    pollLoop fuel s t w = Some out ->
    pollLoop (fuel + extra) s t w = Some out.
Proof.
  induction fuel as [|fuel IH]; intros s t w out extra H; [discriminate|].
  cbn in H |- *.
  destruct (wrap32 (env_micros (w_env w) (w_clk w)) <? t); [|exact H].
  cbn in H |- *.
  destruct (env_adc (w_env w) (w_adc w) >=? CAP_ADC_THRESHOLD); [exact H|].
  apply IH. exact H.
Qed.

(** The loop leaves by the deadline at its turn [k]: it returns 0 after
    exactly [k] conversions. *)
Lemma pollLoop_timeout (k : nat) :
  forall (s t : Z) (w : World) (fuel : nat),
    pollsBelow (w_env w) (w_clk w) (w_adc w) t k ->
    t <= wrap32 (env_micros (w_env w) (w_clk w + k)) ->
    (k < fuel)%nat ->
    exists w',
      pollLoop fuel s t w = Some (0, w') /\
      w_adc w' = (w_adc w + k)%nat /\
      w_clk w' = (w_clk w + k + 1)%nat.
Proof.
  induction k as [|k IH]; intros s t w fuel Hbelow Hdl Hfuel.
  - destruct fuel as [|fuel]; [lia|].
    rewrite Nat.add_0_r in Hdl.
    cbn. apply Z.ltb_ge in Hdl. rewrite Hdl. cbn.
    eexists. split; [reflexivity|]. cbn. lia.
  - destruct fuel as [|fuel]; [lia|].
    destruct (Hbelow 0%nat ltac:(lia)) as [Hc Ha].
    rewrite !Nat.add_0_r in Hc, Ha.
    cbn. apply Z.ltb_lt in Hc. rewrite Hc. cbn.
    assert (Hth : (env_adc (w_env w) (w_adc w) >=? CAP_ADC_THRESHOLD) = false).
    { rewrite Z.geb_leb. apply Z.leb_gt. exact Ha. }
    rewrite Hth.
    match goal with |- exists w', pollLoop fuel s t ?w1 = _ /\ _ =>
      destruct (IH s t w1 fuel) as (w' & Hrun & Hadc & Hclk)
    end.
    + intros j Hj. cbn. specialize (Hbelow (S j) ltac:(lia)).
      rewrite !Nat.add_succ_r in Hbelow. exact Hbelow.
    + cbn. rewrite Nat.add_succ_r in Hdl. exact Hdl.
    + lia.
    + exists w'. split; [exact Hrun|]. cbn in Hadc, Hclk. lia.
Qed.

(** The loop leaves by the threshold at its turn [k]: it returns the
    32-bit difference between the next clock reading and the start. *)
Lemma pollLoop_cross (k : nat) :
  forall (s t : Z) (w : World) (fuel : nat),
    pollsBelow (w_env w) (w_clk w) (w_adc w) t k ->
    wrap32 (env_micros (w_env w) (w_clk w + k)) < t ->
    CAP_ADC_THRESHOLD <= env_adc (w_env w) (w_adc w + k) ->
    (k < fuel)%nat ->
    exists w',
      pollLoop fuel s t w =
        Some (elapsedUs s (wrap32 (env_micros (w_env w) (w_clk w + k + 1))), w') /\
      w_adc w' = (w_adc w + k + 1)%nat /\
      w_clk w' = (w_clk w + k + 2)%nat.
Proof.
  induction k as [|k IH]; intros s t w fuel Hbelow Hdl Hadc Hfuel.
  - destruct fuel as [|fuel]; [lia|].
    rewrite !Nat.add_0_r in *.
    cbn. apply Z.ltb_lt in Hdl. rewrite Hdl. cbn.
    assert (Hth : (env_adc (w_env w) (w_adc w) >=? CAP_ADC_THRESHOLD) = true).
    { rewrite Z.geb_leb. apply Z.leb_le. exact Hadc. }
    rewrite Hth. cbn.
    eexists. split.
    + rewrite Nat.add_1_r. reflexivity.
    + cbn. lia.
  - destruct fuel as [|fuel]; [lia|].
    destruct (Hbelow 0%nat ltac:(lia)) as [Hc Ha].
    rewrite !Nat.add_0_r in Hc, Ha.
    cbn. apply Z.ltb_lt in Hc. rewrite Hc. cbn.
    assert (Hth : (env_adc (w_env w) (w_adc w) >=? CAP_ADC_THRESHOLD) = false).
    { rewrite Z.geb_leb. apply Z.leb_gt. exact Ha. }
    rewrite Hth.
    match goal with |- exists w', pollLoop fuel s t ?w1 = _ /\ _ =>
      destruct (IH s t w1 fuel) as (w' & Hrun & Hadc' & Hclk')
    end.
    + intros j Hj. cbn. specialize (Hbelow (S j) ltac:(lia)).
      rewrite !Nat.add_succ_r in Hbelow. exact Hbelow.
    + cbn. rewrite Nat.add_succ_r in Hdl. exact Hdl.
    + cbn. rewrite Nat.add_succ_r in Hadc. exact Hadc.
    + lia.
    + cbn in Hrun, Hadc', Hclk'.
      exists w'. split.
      * rewrite Hrun.
        replace (w_clk w + S k + 1)%nat with (S (w_clk w + k + 1)) by lia.
        reflexivity.
      * lia.
Qed.

(** ** measureChargeTime *)

(** The call is the fixed charge-start sequence followed by the poll
    loop. *)
Lemma measureChargeTime_unfold (fuel : nat) (w : World) :
  let s := wrap32 (env_micros (w_env w) (w_clk w)) in
  exists w0,
    w_env w0 = w_env w /\
    w_clk w0 = S (w_clk w) /\
    w_adc w0 = w_adc w /\
    w_trace w0 = chargeStartEvents s ++ w_trace w /\
    measureChargeTime fuel w = pollLoop fuel s (wrap32 (s + CAP_TIMEOUT_US)) w0.
Proof.
  cbn.
  exists (after (dischargeCable ;; pinMode CAP_DISCHARGE_PIN INPUT ;;
                 _ <- micros ;; digitalWrite CAP_CHARGE_PIN HIGH) w).
  split; [reflexivity|]. split; [reflexivity|]. split; [reflexivity|].
  split; reflexivity.
Qed.

Lemma measureChargeTime_post (fuel : nat) (w : World) (r : Z) (w' : World) :
  measureChargeTime fuel w = Some (r, w') ->
  capPinsIdle (w_pins w') /\ u32 r /\ measured 1 w w'.
Proof.
  intros H.
  destruct (measureChargeTime_unfold fuel w) as (w0 & He0 & _ & _ & Htr0 & Heq).
  rewrite Heq in H. apply pollLoop_post in H.
  destruct H as (He & Hp & Hr & polls & Htr & Hpolls).
  split; [exact Hp|]. split; [exact Hr|].
  split; [congruence|].
  exists (stopEvents ++ polls ++
          chargeStartEvents (wrap32 (env_micros (w_env w) (w_clk w)))).
  split; [|split].
  - rewrite Htr, Htr0, <- !app_assoc. reflexivity.
  - rewrite !forallb_app, (poll_is_quiet _ Hpolls). reflexivity.
  - rewrite !chargeStarts_app, (poll_no_chargeStart _ Hpolls). reflexivity.
Qed.

(** ** The five cycles *)

Lemma measured_refl (w : World) : measured 0 w w.
Proof. split; [reflexivity|]. exists []. repeat split. Qed.

Lemma measured_trans (a b : nat) (w w1 w2 : World) :
  measured a w w1 -> measured b w1 w2 -> measured (b + a) w w2.
Proof.
  intros (He1 & l1 & Ht1 & Hq1 & Hs1) (He2 & l2 & Ht2 & Hq2 & Hs2).
  split; [congruence|].
  exists (l2 ++ l1). split; [|split].
  - rewrite Ht2, Ht1, app_assoc. reflexivity.
  - rewrite forallb_app, Hq1, Hq2. reflexivity.
  - rewrite chargeStarts_app. congruence.
Qed.

Lemma measured_delay (ms : Z) (w : World) : measured 0 w (log (EvDelay ms) w).
Proof. split; [reflexivity|]. exists [EvDelay ms]. repeat split. Qed.

Lemma chargeTimes_S (fuel n : nat) (w : World) :
  chargeTimes fuel (S n) w =
  match measureChargeTime fuel w with
  | Some (t, w1) =>
      match chargeTimes fuel n (log (EvDelay 10) w1) with
      | Some (ts, w') => Some (t :: ts, w')
      | None => None
      end
  | None => None
  end.
Proof.
  cbn [chargeTimes]. unfold bind at 1.
  destruct (measureChargeTime fuel w) as [[t w1]|]; reflexivity.
Qed.

Lemma sampleLoop_S (fuel n : nat) (acc : Z * Z) (w : World) :
  sampleLoop fuel (S n) acc w =
  match measureChargeTime fuel w with
  | Some (t, w1) => sampleLoop fuel n (accumulate t acc) (log (EvDelay 10) w1)
  | None => None
  end.
Proof.
  cbn [sampleLoop]. unfold bind at 1.
  destruct (measureChargeTime fuel w) as [[t w1]|]; reflexivity.
Qed.

(** The loop of [measureCapacitance] folds [accumulate] over the charge
    times of its cycles, first cycle first. *)
Lemma sampleLoop_chargeTimes (fuel n : nat) :
  forall (acc : Z * Z) (w : World),
    sampleLoop fuel n acc w =
    match chargeTimes fuel n w with
    | Some (ts, w') => Some (fold_left (fun a t => accumulate t a) ts acc, w')
    | None => None
    end.
Proof.
  induction n as [|n IH]; intros acc w; [reflexivity|].
  rewrite sampleLoop_S, chargeTimes_S.
  destruct (measureChargeTime fuel w) as [[t w1]|]; [|reflexivity].
  rewrite IH.
  destruct (chargeTimes fuel n (log (EvDelay 10) w1)) as [[ts w']|]; reflexivity.
Qed.

Lemma chargeTimes_post (fuel n : nat) :
  forall (w : World) (ts : list Z) (w' : World),
    chargeTimes fuel n w = Some (ts, w') ->
    List.length ts = n /\
    Forall u32 ts /\
    measured n w w' /\
    ((0 < n)%nat -> capPinsIdle (w_pins w')).
Proof.
  induction n as [|n IH]; intros w ts w' H.
  - inversion H; subst. repeat split; try constructor; try lia.
    exists []. repeat split.
  - rewrite chargeTimes_S in H.
    destruct (measureChargeTime fuel w) as [[t w1]|] eqn:Hm; [|discriminate].
    destruct (chargeTimes fuel n (log (EvDelay 10) w1)) as [[ts0 w2]|] eqn:Hc;
      [|discriminate].
    inversion H; subst; clear H.
    apply measureChargeTime_post in Hm. destruct Hm as (Hp & Hr & Hm).
    destruct (IH _ _ _ Hc) as (Hlen & Hall & Hmeas & Hidle).
    split; [simpl; congruence|].
    split; [constructor; assumption|].
    split.
    + replace (S n) with (n + (0 + 1))%nat by lia.
      eapply measured_trans; [|exact Hmeas].
      eapply measured_trans; [exact Hm|apply measured_delay].
    + intros _. destruct n as [|n].
      * inversion Hc; subst. exact Hp.
      * apply Hidle. lia.
Qed.

(** The bookkeeping of the loop, in closed form: the 32-bit sum and the
    number of the samples that are not 0. *)
Lemma accumulate_fold (ts : list Z) :
  Forall u32 ts ->
  forall total count : Z,
    u32 total ->
    fold_left (fun a t => accumulate t a) ts (total, count) =
    (wrap32 (total + sumZ (validTimes ts)),
     count + Z.of_nat (List.length (validTimes ts))).
Proof.
  induction 1 as [|t ts Ht Hts IH]; intros total count Htot.
  - cbn. rewrite Z.add_0_r, wrap32_small by assumption.
    f_equal. lia.
  - cbn [fold_left accumulate validTimes filter].
    destruct (t >? 0) eqn:Hpos.
    + assert (Hnz : (t =? 0) = false) by (apply Z.eqb_neq; lia).
      rewrite Hnz. cbn [negb].
      rewrite IH by apply wrap32_range.
      change (sumZ (t :: filter (fun t0 => negb (t0 =? 0)) ts))
        with (t + sumZ (validTimes ts)).
      cbn [List.length]. f_equal.
      * unfold wrap32. rewrite Zplus_mod_idemp_l. f_equal. lia.
      * unfold validTimes. lia.
    + assert (Hz : (t =? 0) = true).
      { apply Z.eqb_eq. unfold u32 in Ht. lia. }
      rewrite Hz. cbn [negb]. apply IH. exact Htot.
Qed.

(** ** measureCapacitance *)

Lemma measureCapacitance_chargeTimes (fuel : nat) (w : World) :
  measureCapacitance fuel w =
  match chargeTimes fuel (Z.to_nat CAP_NUM_SAMPLES) w with
  | Some (ts, w') => Some (resultOf ts, w')
  | None => None
  end.
Proof.
  unfold measureCapacitance, bind.
  rewrite sampleLoop_chargeTimes.
  destruct (chargeTimes fuel (Z.to_nat CAP_NUM_SAMPLES) w) as [[ts w']|] eqn:Hc;
    [|reflexivity].
  apply chargeTimes_post in Hc. destruct Hc as (_ & Hall & _).
  rewrite (accumulate_fold ts Hall 0 0) by (unfold u32; lia).
  unfold resultOf. rewrite !Z.add_0_l.
  destruct (Z.of_nat (List.length (validTimes ts)) >? 0); reflexivity.
Qed.

Lemma resultOf_averaged (ts : list Z) :
  sumZ (validTimes ts) < 2 ^ 32 ->
  Forall u32 ts ->
  resultOf ts = averagedResult ts.
Proof.
  intros Hsum Hall. unfold resultOf, averagedResult.
  assert (Hnonneg : 0 <= sumZ (validTimes ts)).
  { clear Hsum. induction Hall as [|t ts Ht Hts IH]; cbn; [lia|].
    destruct (t =? 0); cbn; [exact IH|].
    unfold u32 in Ht. fold (validTimes ts). unfold sumZ in IH. lia. }
  rewrite wrap32_small by (unfold u32; lia).
  destruct (validTimes ts) as [|t good]; [reflexivity|].
  assert (Hpos : (Z.of_nat (List.length (t :: good)) >? 0) = true).
  { apply Z.gtb_lt. cbn [List.length]. lia. }
  rewrite Hpos. reflexivity.
Qed.

(** ** runCapacitanceTest and calibrateStrayCapacitance in phases *)

Lemma runCapacitanceTest_phases (fuel : nat) (w : World) :
  runCapacitanceTest fuel w =
  match measureCapacitance fuel (after enterCapMode w) with
  | Some (result, w1) =>
      Some (testVerdict result,
            logged (reportEvents result) (after leaveCapMode w1))
  | None => None
  end.
Proof.
  unfold runCapacitanceTest. cbn -[measureCapacitance]. unfold bind at 1.
  destruct (measureCapacitance fuel _) as [[result w1]|]; [|reflexivity].
  unfold testVerdict, reportEvents.
  destruct (valid result); reflexivity.
Qed.

Lemma calibrateStrayCapacitance_phases (fuel : nat) (w : World) :
  calibrateStrayCapacitance fuel w =
  match measureCapacitance fuel
          (after enterCapMode
             (logged [ EvDelay 2000;
                       EvPrintln (PStr "CAP_CAL:Ensure NO cable is connected");
                       EvPrintln (PStr "CAP_CAL:Starting stray capacitance calibration") ]
                     w)) with
  | Some (result, w1) =>
      Some (tt, logged (calibrationEvents result) (after leaveCapMode w1))
  | None => None
  end.
Proof.
  unfold calibrateStrayCapacitance. cbn -[measureCapacitance]. unfold bind at 1.
  destruct (measureCapacitance fuel _) as [[result w1]|]; [|reflexivity].
  unfold calibrationEvents.
  destruct (valid result); reflexivity.
Qed.

(** ** calculateCapacitance *)

(** Closed equations between rational constants. *)
Ltac Qconst := vm_compute; reflexivity.

Lemma Qscale_assoc (x a b c : Q) :
  (~ a == 0 -> ~ b == 0 -> x / a / b * c == x * (c / (a * b)))%Q.
Proof. intros Ha Hb. field. split; assumption. Qed.

(** One microsecond of charge time is 10000/15246 pF. *)
Lemma rawCapacitancePf_linear (t : Z) :
  (rawCapacitancePf t == inject_Z t * (10000 # 15246))%Q.
Proof.
  unfold rawCapacitancePf.
  rewrite Qscale_assoc by (intros H; vm_compute in H; discriminate).
  apply Qmult_comp; [reflexivity|Qconst].
Qed.

(** The code's arithmetic, one step at a time, is the specification's
    formula. *)
Lemma calculateCapacitance_nonzero (t : Z) :
  t <> 0 ->
  (calculateCapacitance t == correctedCapacitancePf t)%Q.
Proof.
  intros Ht. unfold calculateCapacitance, correctedCapacitancePf.
  apply Z.eqb_neq in Ht. rewrite Ht.
  assert (Heq : (inject_Z t / 1000000.0 / (CAP_CHARGE_RESISTOR * 0.693) * 1e12
                 - CAP_STRAY_PF == rawCapacitancePf t - 20.0)%Q).
  { unfold rawCapacitancePf.
    apply Qplus_comp; [|Qconst].
    apply Qmult_comp; [|reflexivity].
    apply Qdiv_comp; [|Qconst].
    apply Qdiv_comp; [reflexivity|Qconst]. }
  cbv zeta. unfold Qltb.
  destruct (Qle_bool 0 _) eqn:Hle; cbn [negb].
  - apply Qle_bool_iff in Hle. rewrite Heq in Hle.
    rewrite Q.max_r by exact Hle. exact Heq.
  - assert (Hlt : (rawCapacitancePf t - 20.0 < 0)%Q).
    { apply Qnot_le_lt. intros Hc. rewrite <- Heq in Hc.
      apply Qle_bool_iff in Hc. congruence. }
    rewrite Q.max_l by (apply Qlt_le_weak; exact Hlt). reflexivity.
Qed.

Lemma calculateCapacitance_linear (t : Z) :
  t <> 0 ->
  (calculateCapacitance t == Qmax 0 (inject_Z t * (10000 # 15246) - 20))%Q.
Proof.
  intros Ht. rewrite (calculateCapacitance_nonzero t Ht).
  unfold correctedCapacitancePf.
  apply Q.max_compat; [reflexivity|].
  apply Qplus_comp; [apply rawCapacitancePf_linear|Qconst].
Qed.

(** ** The IEEE results over a range of charge times *)







(** Strictness cannot go further: at the far end of the 32-bit range
    neighbouring charge times give the same IEEE result in both formats,
    and so do 8388743 and 8388744 with [double] as binary32. *)
Example ieee_large_times_collide :
  Ieee.calculateCapacitance 24 128 4294967294
    = Ieee.calculateCapacitance 24 128 4294967295 /\
  Ieee.calculateCapacitance 53 1024 4294967294
    = Ieee.calculateCapacitance 53 1024 4294967295 /\
  Ieee.calculateCapacitance 24 128 8388743
    = Ieee.calculateCapacitance 24 128 8388744.
Proof. vm_compute. repeat split. Qed.

(** C1 (refuted as stated): for the timeout sentinel 0 the function does
    not return anything other than zero: it returns the ordinary value
    0.0. *)
Lemma calculateCapacitance_timeout_is_zero :
  calculateCapacitance 0 = 0%Q /\ ~ (~ calculateCapacitance 0 == 0)%Q.
Proof. split; [reflexivity|]. intros H. apply H. reflexivity. Qed.

(** C1 (amended): for every charge time t > 0, [calculateCapacitance t] is
    max(0, (t/1e6)/(2200000*0.693)*1e12 - 20.0) picofarads; for t = 0 it
    is the ordinary value 0.0, the same value every t from 1 to 30 is
    clamped to. *)
Theorem calculateCapacitance_formula :
  (forall t : Z, 0 < t ->
     (calculateCapacitance t == correctedCapacitancePf t)%Q) /\
  calculateCapacitance 0 = 0%Q /\
  (calculateCapacitance 30 == calculateCapacitance 0)%Q.
Proof.
  split; [|split].
  - intros t Ht. apply calculateCapacitance_nonzero. lia.
  - reflexivity.
  - Qconst.
Qed.

Lemma calculateCapacitance_formula_witness :
  (calculateCapacitance 3000 == correctedCapacitancePf 3000)%Q.
Proof.
  apply (proj1 calculateCapacitance_formula 3000). reflexivity.
Defined.




(** ** What a measurement leaves behind *)

Lemma measureCapacitance_post (fuel : nat) (w : World)
      (result : CapacitanceResult) (w' : World) :
  measureCapacitance fuel w = Some (result, w') ->
  exists ts,
    chargeTimes fuel (Z.to_nat CAP_NUM_SAMPLES) w = Some (ts, w') /\
    result = resultOf ts /\
    List.length ts = 5%nat /\
    Forall u32 ts /\
    measured 5 w w' /\
    capPinsIdle (w_pins w').
Proof.
  intros H. rewrite measureCapacitance_chargeTimes in H.
  destruct (chargeTimes fuel (Z.to_nat CAP_NUM_SAMPLES) w) as [[ts w1]|] eqn:Hc;
    [|discriminate].
  inversion H; subst; clear H.
  exists ts. split; [reflexivity|]. split; [reflexivity|].
  apply chargeTimes_post in Hc. destruct Hc as (Hlen & Hall & Hm & Hidle).
  repeat split; try assumption.
  - apply Hm.
  - apply Hm.
  - apply Hidle. cbn. lia.
  - apply Hidle. cbn. lia.
  - apply Hidle. cbn. lia.
Qed.

Lemma resultOf_valid (ts : list Z) :
  valid (resultOf ts) = negb (Nat.eqb (List.length (validTimes ts)) 0).
Proof.
  unfold resultOf. cbv zeta.
  destruct (validTimes ts) as [|t good]; reflexivity.
Qed.

Lemma resultOf_capacitance (ts : list Z) :
  valid (resultOf ts) = true ->
  capacitance_pf (resultOf ts) =
  calculateCapacitance (charge_time_us (resultOf ts)).
Proof.
  unfold resultOf. cbv zeta.
  destruct (Z.of_nat (List.length (validTimes ts)) >? 0); [reflexivity|discriminate].
Qed.

Lemma inRangePf_iff (c : Q) :
  inRangePf c = true <-> (50 <= c /\ c <= 2000)%Q.
Proof.
  unfold inRangePf. rewrite andb_true_iff, !Qle_bool_iff. reflexivity.
Qed.

(** The world in which [resetCircuit()] is invoked by [leaveCapMode]. *)
Lemma leaveCapMode_reset (w : World) :
  exists wm,
    after leaveCapMode w = after resetCircuit wm /\
    w_env wm = w_env w /\
    contPinsIdle (w_pins wm) /\
    (capPinsIdle (w_pins w) -> capPinsIdle (w_pins wm)) /\
    w_trace wm =
      [ EvWrite TS_CONT_OUT_TIP_PIN LOW; EvPinMode TS_CONT_OUT_TIP_PIN OUTPUT;
        EvWrite TS_CONT_OUT_SLEEVE_PIN LOW; EvPinMode TS_CONT_OUT_SLEEVE_PIN OUTPUT ]
      ++ w_trace w.
Proof.
  exists (after (pinMode TS_CONT_OUT_SLEEVE_PIN OUTPUT ;;
                 digitalWrite TS_CONT_OUT_SLEEVE_PIN LOW ;;
                 pinMode TS_CONT_OUT_TIP_PIN OUTPUT ;;
                 digitalWrite TS_CONT_OUT_TIP_PIN LOW) w).
  split; [reflexivity|]. split; [reflexivity|].
  split; [cbn; repeat split|].
  split; [intros H; exact H|reflexivity].
Qed.

Lemma reportEvents_are_reports (result : CapacitanceResult) :
  forallb isReport (reportEvents result) = true /\ reportEvents result <> [].
Proof.
  unfold reportEvents. destruct (valid result); cbn; split;
    try reflexivity; discriminate.
Qed.

(** Every run of the test that ends went through the same phases; the
    world [wm] is the one in which [resetCircuit()] is invoked. *)
Lemma runCapacitanceTest_inv (fuel : nat) (w : World) (b : bool) (w' : World) :
  runCapacitanceTest fuel w = Some (b, w') ->
  exists result wm quiet,
    b = testVerdict result /\
    w' = logged (reportEvents result) (after resetCircuit wm) /\
    w_env wm = w_env w /\
    capPinsIdle (w_pins wm) /\
    contPinsIdle (w_pins wm) /\
    w_trace wm = quiet ++ w_trace w /\
    forallb isQuiet quiet = true.
Proof.
  intros H. rewrite runCapacitanceTest_phases in H.
  destruct (measureCapacitance fuel (after enterCapMode w))
    as [[result w1]|] eqn:Hm; [|discriminate].
  inversion H; subst; clear H.
  apply measureCapacitance_post in Hm.
  destruct Hm as (ts & _ & _ & _ & _ & (He & added & Htr & Hq & _) & Hidle).
  destruct (leaveCapMode_reset w1) as (wm & Hleave & Hem & Hcont & Hcap & Htrm).
  exists result, wm.
  eexists. split; [reflexivity|]. split; [rewrite Hleave; reflexivity|].
  split; [rewrite Hem, He; reflexivity|].
  split; [exact (Hcap Hidle)|]. split; [exact Hcont|].
  split.
  - rewrite Htrm, Htr. cbn [after enterCapMode]. cbn.
    rewrite app_comm_cons.
    repeat rewrite app_comm_cons.
    instantiate (1 :=
      [ EvWrite TS_CONT_OUT_TIP_PIN LOW; EvPinMode TS_CONT_OUT_TIP_PIN OUTPUT;
        EvWrite TS_CONT_OUT_SLEEVE_PIN LOW; EvPinMode TS_CONT_OUT_SLEEVE_PIN OUTPUT ]
      ++ added ++
      [ EvDelay 20; EvPinMode TS_CONT_OUT_TIP_PIN INPUT;
        EvPinMode TS_CONT_OUT_SLEEVE_PIN INPUT;
        EvWrite K4_RELAY_PIN LOW; EvWrite K1_K2_RELAY_PIN HIGH ]).
    rewrite <- !app_assoc. reflexivity.
  - rewrite !forallb_app, Hq. reflexivity.
Qed.

(** ** The claims about measureCapacitance and runCapacitanceTest *)

Lemma chargeTimes_cycles (fuel n : nat) :
  forall (w : World) (ts : list Z) (w' : World),
    chargeTimes fuel n w = Some (ts, w') ->
    exists added, w_trace w' = added ++ w_trace w /\ cycleEvents n added.
Proof.
  induction n as [|n IH]; intros w ts w' H.
  - inversion H; subst. exists []. split; reflexivity.
  - rewrite chargeTimes_S in H.
    destruct (measureChargeTime fuel w) as [[t w1]|] eqn:Hm; [|discriminate].
    destruct (chargeTimes fuel n (log (EvDelay 10) w1)) as [[ts0 w2]|] eqn:Hc;
      [|discriminate].
    inversion H; subst; clear H.
    destruct (measureChargeTime_unfold fuel w) as (w0 & _ & _ & _ & Htr0 & Heq).
    rewrite Heq in Hm. apply pollLoop_post in Hm.
    destruct Hm as (_ & _ & _ & polls & Htr1 & Hpolls).
    destruct (IH _ _ _ Hc) as (later & Htr2 & Hlater).
    cbn in Htr2.
    exists (later ++ EvDelay 10 :: stopEvents ++ polls
                  ++ chargeStartEvents (wrap32 (env_micros (w_env w) (w_clk w)))).
    split.
    + rewrite Htr2, Htr1, Htr0.
      repeat (rewrite <- app_assoc || rewrite <- app_comm_cons). reflexivity.
    + cbn [cycleEvents]. eexists. exists polls, later.
      split; [reflexivity|]. split; assumption.
Qed.

(** C2 (the code at the failing input): two valid charge times of
    4294967196 microseconds and three timeouts.  The average of the valid
    times is 4294967196; the 32-bit sum [totalTime] wraps, and the
    measurement returns an averaged time of 2147483548 and the capacitance
    of that time. *)
Lemma measureCapacitance_sum_overflows :
  chargeTimes 10 5 wrappingSum
    = Some ([4294967196; 4294967196; 0; 0; 0],
            after (chargeTimes 10 5) wrappingSum) /\
  sumZ (validTimes [4294967196; 4294967196; 0; 0; 0]) / 2 = 4294967196 /\
  measureCapacitance 10 wrappingSum
    = Some (mkResult true (calculateCapacitance 2147483548) 2147483548 2,
            after (measureCapacitance 10) wrappingSum) /\
  charge_time_us (averagedResult [4294967196; 4294967196; 0; 0; 0]) = 4294967196.
Proof.
  split; [vm_compute; reflexivity|].
  split; [reflexivity|].
  split; [vm_compute; reflexivity|reflexivity].
Qed.

(** Apart from that overflow the measurement is as described:
    [measureCapacitance] runs exactly 5 discharge-charge-poll cycles, each
    followed by its pause; the samples whose charge time is 0 are
    discarded; the averaged time is the sum of the others modulo 2^32
    divided by their number, which is their average as long as the sum
    fits the 32-bit accumulator; the capacitance is computed once, from
    that averaged time; with no valid sample the result has
    [valid = false]. *)
Theorem measureCapacitance_averages (fuel : nat) (w : World)
        (result : CapacitanceResult) (w' : World) :
  measureCapacitance fuel w = Some (result, w') ->
  exists ts added,
    chargeTimes fuel 5 w = Some (ts, w') /\
    List.length ts = 5%nat /\
    w_trace w' = added ++ w_trace w /\
    cycleEvents 5 added /\
    measured 5 w w' /\
    result = resultOf ts /\
    (sumZ (validTimes ts) < 2 ^ 32 -> result = averagedResult ts) /\
    (valid result = true ->
     capacitance_pf result = calculateCapacitance (charge_time_us result)) /\
    (validTimes ts = [] -> valid result = false).
Proof.
  intros H. apply measureCapacitance_post in H.
  destruct H as (ts & Hc & Hres & Hlen & Hall & Hm & _).
  destruct (chargeTimes_cycles _ _ _ _ _ Hc) as (added & Htr & Hcycles).
  exists ts, added. subst result.
  split; [exact Hc|]. split; [exact Hlen|]. split; [exact Htr|].
  split; [exact Hcycles|]. split; [exact Hm|]. split; [reflexivity|].
  split; [|split].
  - intros Hsum. apply resultOf_averaged; assumption.
  - apply resultOf_capacitance.
  - intros Hnone. rewrite resultOf_valid, Hnone. reflexivity.
Qed.

Lemma measureCapacitance_averages_witness :
  measureCapacitance 10 mixedSamples =
    Some (averagedResult [3000; 0; 3102; 0; 3098],
          after (measureCapacitance 10) mixedSamples) /\
  charge_time_us (averagedResult [3000; 0; 3102; 0; 3098]) = 3066 /\
  num_samples (averagedResult [3000; 0; 3102; 0; 3098]) = 3 /\
  exists added,
    w_trace (after (measureCapacitance 10) mixedSamples)
      = added ++ w_trace mixedSamples /\
    cycleEvents 5 added.
Proof.
  destruct (measureCapacitance_averages 10 mixedSamples
              (mkResult true (calculateCapacitance 3066) 3066 3)
              (after (measureCapacitance 10) mixedSamples))
    as (ts & added & Hc & _ & Htr & Hcycles & _ & _ & Havg & _).
  - vm_compute. reflexivity.
  - assert (Hts : ts = [3000; 0; 3102; 0; 3098]).
    { vm_compute in Hc. congruence. }
    subst ts.
    rewrite <- (Havg ltac:(vm_compute; reflexivity)).
    split; [vm_compute; reflexivity|]. split; [reflexivity|].
    split; [reflexivity|]. exists added. split; assumption.
Defined.

(** C3: after any capacitance test that ends, whatever it returns, the
    charge pin is driven LOW, the discharge pin is an OUTPUT driven LOW and
    both continuity pins are OUTPUTs driven LOW in the world [wm] in which
    [resetCircuit()] is then invoked; nothing is printed before that, and
    the report follows the reset without touching the pins. *)
Theorem runCapacitanceTest_restores (fuel : nat) (w : World)
        (b : bool) (w' : World) :
  runCapacitanceTest fuel w = Some (b, w') ->
  exists wm quiet reports,
    capPinsIdle (w_pins wm) /\
    contPinsIdle (w_pins wm) /\
    w_trace wm = quiet ++ w_trace w /\
    forallb isQuiet quiet = true /\
    w' = logged reports (after resetCircuit wm) /\
    w_pins w' = env_reset (w_env w) (w_pins wm) /\
    forallb isReport reports = true /\
    reports <> [].
Proof.
  intros H. apply runCapacitanceTest_inv in H.
  destruct H as (result & wm & quiet & _ & Hw' & He & Hcap & Hcont & Htr & Hq).
  exists wm, quiet, (reportEvents result).
  split; [exact Hcap|]. split; [exact Hcont|]. split; [exact Htr|].
  split; [exact Hq|]. split; [exact Hw'|].
  split; [subst w'; cbn; rewrite He; reflexivity|].
  apply reportEvents_are_reports.
Qed.

Lemma runCapacitanceTest_restores_witness :
  exists wm quiet reports,
    capPinsIdle (w_pins wm) /\
    contPinsIdle (w_pins wm) /\
    w_trace wm = quiet ++ w_trace mixedSamples /\
    forallb isQuiet quiet = true /\
    after (runCapacitanceTest 10) mixedSamples
      = logged reports (after resetCircuit wm) /\
    w_pins (after (runCapacitanceTest 10) mixedSamples)
      = env_reset (w_env mixedSamples) (w_pins wm) /\
    forallb isReport reports = true /\
    reports <> [].
Proof.
  apply (runCapacitanceTest_restores 10 mixedSamples true).
  vm_compute. reflexivity.
Defined.

(** C5: if all 5 samples time out (every charge time is 0), the
    measurement result has [valid = false], [runCapacitanceTest] returns
    false, and the last thing it does is print the line
    CAP:FAIL:TIMEOUT:No charge detected, after the pins have been restored
    and [resetCircuit()] has been invoked. *)
Theorem runCapacitanceTest_all_timeouts (fuel : nat) (w w1 : World) (ts : list Z) :
  chargeTimes fuel 5 (after enterCapMode w) = Some (ts, w1) ->
  Forall (fun t => t = 0) ts ->
  measureCapacitance fuel (after enterCapMode w)
    = Some (mkResult false 0 0 0, w1) /\
  exists wm,
    runCapacitanceTest fuel w =
      Some (false,
            logged [ EvPrintln (PStr "CAP:FAIL:TIMEOUT:No charge detected") ]
                   (after resetCircuit wm)) /\
    capPinsIdle (w_pins wm) /\
    contPinsIdle (w_pins wm) /\
    exists quiet,
      w_trace wm = quiet ++ w_trace w /\ forallb isQuiet quiet = true.
Proof.
  intros Hc Hzero.
  assert (Hnone : validTimes ts = []).
  { clear Hc. induction Hzero as [|t ts Ht Hts IH]; [reflexivity|].
    subst t. exact IH. }
  assert (Hres : resultOf ts = mkResult false 0 0 0).
  { unfold resultOf. rewrite Hnone. reflexivity. }
  assert (Hm : measureCapacitance fuel (after enterCapMode w)
               = Some (mkResult false 0 0 0, w1)).
  { rewrite measureCapacitance_chargeTimes.
    change (Z.to_nat CAP_NUM_SAMPLES) with 5%nat.
    rewrite Hc, Hres. reflexivity. }
  split; [exact Hm|].
  pose proof (measureCapacitance_post _ _ _ _ Hm)
    as (_ & _ & _ & _ & _ & (_ & added & Hadd & Hqa & _) & Hidle).
  destruct (leaveCapMode_reset w1) as (wm & Hleave & _ & Hcont & Hcap & Htr).
  exists wm. split.
  - rewrite runCapacitanceTest_phases, Hm, Hleave. reflexivity.
  - split; [exact (Hcap Hidle)|]. split; [exact Hcont|].
    exists ([ EvWrite TS_CONT_OUT_TIP_PIN LOW; EvPinMode TS_CONT_OUT_TIP_PIN OUTPUT;
              EvWrite TS_CONT_OUT_SLEEVE_PIN LOW;
              EvPinMode TS_CONT_OUT_SLEEVE_PIN OUTPUT ]
            ++ added ++
            [ EvDelay 20; EvPinMode TS_CONT_OUT_TIP_PIN INPUT;
              EvPinMode TS_CONT_OUT_SLEEVE_PIN INPUT;
              EvWrite K4_RELAY_PIN LOW; EvWrite K1_K2_RELAY_PIN HIGH ]).
    split.
    + rewrite Htr, Hadd. cbn. rewrite <- !app_assoc. reflexivity.
    + rewrite !forallb_app, Hqa. reflexivity.
Qed.

Lemma runCapacitanceTest_all_timeouts_witness :
  measureCapacitance 10 (after enterCapMode openCircuit)
    = Some (mkResult false 0 0 0,
            after (chargeTimes 10 5) (after enterCapMode openCircuit)) /\
  exists wm,
    runCapacitanceTest 10 openCircuit =
      Some (false,
            logged [ EvPrintln (PStr "CAP:FAIL:TIMEOUT:No charge detected") ]
                   (after resetCircuit wm)) /\
    capPinsIdle (w_pins wm) /\
    contPinsIdle (w_pins wm) /\
    exists quiet,
      w_trace wm = quiet ++ w_trace openCircuit /\ forallb isQuiet quiet = true.
Proof.
  apply (runCapacitanceTest_all_timeouts 10 openCircuit
           (after (chargeTimes 10 5) (after enterCapMode openCircuit))
           [0; 0; 0; 0; 0]).
  - vm_compute. reflexivity.
  - repeat constructor.
Defined.

(** C6: for a valid measurement [runCapacitanceTest] returns true exactly
    when the corrected capacitance C satisfies 50 <= C <= 2000 pF, both
    bounds included; an averaged charge time of 3000 microseconds gives a
    corrected capacitance between 1947 and 1948 pF, which is in range. *)
Theorem runCapacitanceTest_classifies (fuel : nat) (w : World)
        (result : CapacitanceResult) (w1 : World) :
  measureCapacitance fuel (after enterCapMode w) = Some (result, w1) ->
  valid result = true ->
  (exists w',
     runCapacitanceTest fuel w = Some (inRangePf (capacitance_pf result), w')) /\
  (inRangePf (capacitance_pf result) = true <->
   (50 <= capacitance_pf result /\ capacitance_pf result <= 2000)%Q) /\
  inRangePf 50 = true /\
  inRangePf 2000 = true /\
  (charge_time_us result = 3000 ->
   (1947 < capacitance_pf result /\ capacitance_pf result < 1948)%Q /\
   inRangePf (capacitance_pf result) = true).
Proof.
  intros Hm Hvalid.
  split; [|split; [apply inRangePf_iff|]].
  - rewrite runCapacitanceTest_phases, Hm.
    unfold testVerdict. rewrite Hvalid. cbn [negb].
    eexists. reflexivity.
  - split; [reflexivity|]. split; [reflexivity|].
    intros Htime.
    apply measureCapacitance_post in Hm.
    destruct Hm as (ts & _ & Hres & _).
    subst result. rewrite (resultOf_capacitance ts Hvalid), Htime.
    split; [split|]; reflexivity.
Qed.

Lemma runCapacitanceTest_classifies_witness :
  (exists w', runCapacitanceTest 10 (crossingAfter 3000) = Some (true, w')) /\
  (1947 < calculateCapacitance 3000 /\ calculateCapacitance 3000 < 1948)%Q.
Proof.
  destruct (runCapacitanceTest_classifies 10 (crossingAfter 3000)
              (mkResult true (calculateCapacitance 3000) 3000 5)
              (after (measureCapacitance 10) (after enterCapMode (crossingAfter 3000))))
    as (Hrun & _ & _ & _ & Hscenario).
  - vm_compute. reflexivity.
  - reflexivity.
  - split; [exact Hrun|]. apply (Hscenario eq_refl).
Defined.

(** ** The claims about measureChargeTime *)

(** C4 (the code at the failing input): the start timestamp is taken 50 ms
    before the 32-bit clock wraps and the sense pin is above the threshold
    at every conversion; 8 microseconds after the start the call returns
    0, the timeout value, without a single conversion. *)
Theorem measureChargeTime_spurious_timeout :
  (forall n, CAP_ADC_THRESHOLD <= env_adc (w_env nearWrap) n) /\
  exists w',
    measureChargeTime 10 nearWrap = Some (0, w') /\
    w_adc w' = 0%nat /\
    w_trace w' =
      stopEvents ++ [ EvMicros 4294917304 ] ++ chargeStartEvents 4294917296 /\
    elapsedUs 4294917296 4294917304 = 8.
Proof.
  split.
  - intros n. vm_compute. discriminate.
  - exists (after (measureChargeTime 10) nearWrap).
    vm_compute. repeat split.
Qed.

(** C9 (refuted as stated): the start timestamp 4294967294 is within
    100000 microseconds of the wrap-around, yet the loop body runs: the
    clock has wrapped by the first deadline test, a conversion is taken and
    the call returns a charge time of 116 microseconds. *)
Lemma measureChargeTime_samples_across_wrap :
  2 ^ 32 - CAP_TIMEOUT_US <= 4294967294 < 2 ^ 32 /\
  wrap32 (env_micros (w_env acrossWrap) (w_clk acrossWrap)) = 4294967294 /\
  exists w',
    measureChargeTime 10 acrossWrap = Some (116, w') /\
    w_adc w' = 1%nat /\
    In (EvRead CAP_SENSE_PIN 600) (w_trace w').
Proof.
  split; [vm_compute; split; [discriminate|reflexivity]|].
  split; [vm_compute; reflexivity|].
  exists (after (measureChargeTime 10) acrossWrap).
  split; [vm_compute; reflexivity|].
  split; [vm_compute; reflexivity|].
  vm_compute. tauto.
Qed.

(** C9 (amended): the deadline is startTime + 100000 modulo 2^32; for
    every start timestamp within 100000 microseconds of the wrap-around it
    wraps below startTime, and if the clock reading of the first loop test
    is not below that wrapped deadline (so whenever the clock itself has
    not wrapped since the start) the loop body never runs:
    [measureChargeTime] returns 0 without a single conversion. *)
Theorem measureChargeTime_deadline_wraps (fuel : nat) (w : World) :
  let s := wrap32 (env_micros (w_env w) (w_clk w)) in
  let firstTest := wrap32 (env_micros (w_env w) (S (w_clk w))) in
  2 ^ 32 - CAP_TIMEOUT_US <= s ->
  wrap32 (s + CAP_TIMEOUT_US) = s + CAP_TIMEOUT_US - 2 ^ 32 /\
  wrap32 (s + CAP_TIMEOUT_US) < s /\
  (wrap32 (s + CAP_TIMEOUT_US) <= firstTest ->
   exists w',
     measureChargeTime (S fuel) w = Some (0, w') /\
     w_adc w' = w_adc w /\
     w_trace w' =
       stopEvents ++ [ EvMicros firstTest ] ++ chargeStartEvents s ++ w_trace w) /\
  (s <= firstTest -> wrap32 (s + CAP_TIMEOUT_US) <= firstTest).
Proof.
  intros s firstTest Hnear.
  assert (Hs : u32 s) by apply wrap32_range.
  assert (Hwrap : wrap32 (s + CAP_TIMEOUT_US) = s + CAP_TIMEOUT_US - 2 ^ 32).
  { unfold wrap32 at 1. unfold u32, CAP_TIMEOUT_US in *.
    symmetry. apply Z.mod_unique with (q := 1); lia. }
  split; [exact Hwrap|].
  split; [rewrite Hwrap; unfold CAP_TIMEOUT_US; lia|].
  split.
  - intros Hdl. apply Z.ltb_ge in Hdl.
    cbn. fold s. fold firstTest. rewrite Hdl. cbn.
    eexists. split; [reflexivity|]. split; reflexivity.
  - intros Hmono. rewrite Hwrap. unfold CAP_TIMEOUT_US. lia.
Qed.

Lemma measureChargeTime_deadline_wraps_witness :
  exists w',
    measureChargeTime 1 nearWrap = Some (0, w') /\
    w_adc w' = 0%nat /\
    w_trace w' =
      stopEvents ++ [ EvMicros 4294917304 ] ++ chargeStartEvents 4294917296.
Proof.
  destruct (measureChargeTime_deadline_wraps 0 nearWrap) as (_ & _ & Hrun & _).
  - vm_compute. discriminate.
  - apply Hrun. vm_compute. discriminate.
Defined.

(** C10: a threshold crossing at the first conversion with an elapsed
    time of 0 microseconds makes [measureChargeTime] return 0, the timeout
    value, and the loop of [measureCapacitance] then leaves its sum and its
    count of valid samples as they were. *)
Theorem measureChargeTime_instant_crossing (fuel : nat) (w : World) :
  let s := wrap32 (env_micros (w_env w) (w_clk w)) in
  wrap32 (env_micros (w_env w) (S (w_clk w))) < wrap32 (s + CAP_TIMEOUT_US) ->
  CAP_ADC_THRESHOLD <= env_adc (w_env w) (w_adc w) ->
  elapsedUs s (wrap32 (env_micros (w_env w) (S (S (w_clk w))))) = 0 ->
  exists w',
    measureChargeTime (S fuel) w = Some (0, w') /\
    w_adc w' = S (w_adc w) /\
    In (EvRead CAP_SENSE_PIN (env_adc (w_env w) (w_adc w))) (w_trace w') /\
    forall (n : nat) (acc : Z * Z),
      sampleLoop (S fuel) (S n) acc w
      = sampleLoop (S fuel) n acc (log (EvDelay 10) w').
Proof.
  intros s Hdl Hadc Hzero.
  apply Z.ltb_lt in Hdl.
  assert (Hth : (env_adc (w_env w) (w_adc w) >=? CAP_ADC_THRESHOLD) = true).
  { rewrite Z.geb_leb. apply Z.leb_le. exact Hadc. }
  assert (Hrun : exists w',
             measureChargeTime (S fuel) w = Some (0, w') /\
             w_adc w' = S (w_adc w) /\
             In (EvRead CAP_SENSE_PIN (env_adc (w_env w) (w_adc w))) (w_trace w')).
  { cbn. fold s. rewrite Hdl. cbn. rewrite Hth. cbn.
    unfold elapsedUs in Hzero. rewrite Hzero.
    eexists. split; [reflexivity|]. split; [reflexivity|].
    cbn. tauto. }
  destruct Hrun as (w' & Hrun & Ha & Hin).
  exists w'. split; [exact Hrun|]. split; [exact Ha|]. split; [exact Hin|].
  intros n [total count]. rewrite sampleLoop_S, Hrun. reflexivity.
Qed.

Lemma measureChargeTime_instant_crossing_witness :
  exists w',
    measureChargeTime 1 instantCrossing = Some (0, w') /\
    w_adc w' = 1%nat /\
    In (EvRead CAP_SENSE_PIN 600) (w_trace w') /\
    forall (n : nat) (acc : Z * Z),
      sampleLoop 1 (S n) acc instantCrossing
      = sampleLoop 1 n acc (log (EvDelay 10) w').
Proof.
  apply (measureChargeTime_instant_crossing 0 instantCrossing).
  - reflexivity.
  - vm_compute. discriminate.
  - reflexivity.
Defined.

(** ** Calibration *)

(** What the calibration emits, for any charge time other than 0: the raw
    capacitance when it is above the stray offset, the offset itself
    otherwise. *)
Lemma emitted_is_clamped_raw (t : Z) :
  t <> 0 ->
  (calculateCapacitance t + CAP_STRAY_PF == Qmax 20 (rawCapacitancePf t))%Q.
Proof.
  intros Ht. rewrite (calculateCapacitance_nonzero t Ht).
  unfold correctedCapacitancePf.
  rewrite <- Q.plus_max_distr_r.
  apply Q.max_compat; [Qconst|].
  unfold CAP_STRAY_PF. unfold Qminus. rewrite <- Qplus_assoc.
  setoid_replace (- 20.0 + 20.0)%Q with 0%Q by Qconst.
  apply Qplus_0_r.
Qed.

(** From 31 microseconds on, adding the offset back recovers the raw
    capacitance exactly. *)
Lemma calibration_roundtrip (t : Z) :
  31 <= t ->
  (calculateCapacitance t + CAP_STRAY_PF == rawCapacitancePf t)%Q.
Proof.
  intros Ht. rewrite emitted_is_clamped_raw by lia.
  apply Q.max_r. rewrite rawCapacitancePf_linear.
  apply Qle_trans with (inject_Z 31 * (10000 # 15246))%Q.
  - vm_compute. discriminate.
  - apply Qmult_le_compat_r; [|vm_compute; discriminate].
    rewrite <- Zle_Qle. exact Ht.
Qed.

(** C7 (the code at the failing input): on an open fixture whose five
    cycles all cross the threshold after 15 microseconds the measurement is
    valid with an averaged time of 15, the raw capacitance is below 10 pF,
    and the calibration emits 20 pF: the offset it was compiled with. *)
Theorem calibrateStrayCapacitance_emits_offset :
  let result := mkResult true 0 15 5 in
  measureCapacitance 10 (crossingAfter 15)
    = Some (result, after (measureCapacitance 10) (crossingAfter 15)) /\
  (exists w',
     calibrateStrayCapacitance 10 (crossingAfter 15) = Some (tt, w') /\
     firstn 6 (w_trace w') = calibrationEvents result /\
     In (EvPrint (PFloat (emittedStrayPf result) 1)) (w_trace w')) /\
  (emittedStrayPf result == 20)%Q /\
  (rawCapacitancePf 15 < 10)%Q /\
  ~ (emittedStrayPf result == rawCapacitancePf 15)%Q.
Proof.
  cbv zeta. split; [vm_compute; reflexivity|].
  split.
  - exists (after (calibrateStrayCapacitance 10) (crossingAfter 15)).
    split; [vm_compute; reflexivity|].
    split; [vm_compute; reflexivity|].
    vm_compute. tauto.
  - split; [Qconst|]. split; [vm_compute; reflexivity|].
    intros H. vm_compute in H. discriminate.
Qed.

(** The calibration restores the pins and invokes [resetCircuit()] before
    it prints its reading, like the test. *)
Lemma calibrateStrayCapacitance_restores (fuel : nat) (w w' : World) :
  calibrateStrayCapacitance fuel w = Some (tt, w') ->
  exists result wm,
    capPinsIdle (w_pins wm) /\
    contPinsIdle (w_pins wm) /\
    w' = logged (calibrationEvents result) (after resetCircuit wm).
Proof.
  intros H. rewrite calibrateStrayCapacitance_phases in H.
  destruct (measureCapacitance fuel _) as [[result w1]|] eqn:Hm; [|discriminate].
  inversion H; subst; clear H.
  apply measureCapacitance_post in Hm.
  destruct Hm as (_ & _ & _ & _ & _ & _ & Hidle).
  destruct (leaveCapMode_reset w1) as (wm & Hleave & _ & Hcont & Hcap & _).
  exists result, wm.
  split; [exact (Hcap Hidle)|]. split; [exact Hcont|].
  rewrite Hleave. reflexivity.
Qed.

(** ** The deadline test *)

(** When neither the deadline nor the clock wraps, the loop test is the
    comparison of the elapsed time with 100 ms. *)
Lemma deadline_test_without_wrap (s now : Z) :
  u32 s -> u32 now ->
  s + CAP_TIMEOUT_US < 2 ^ 32 ->
  s <= now ->
  (now <? wrap32 (s + CAP_TIMEOUT_US)) = (elapsedUs s now <? CAP_TIMEOUT_US).
Proof.
  unfold u32, elapsedUs, CAP_TIMEOUT_US. intros Hs Hnow Hfit Hle.
  rewrite !wrap32_small by (unfold u32; lia).
  destruct (Z.ltb_spec now (s + 100000)), (Z.ltb_spec (now - s) 100000);
    try reflexivity; lia.
Qed.

(** The call times out at turn [k] of its loop. *)
Lemma measureChargeTime_timeout (k fuel : nat) (w : World) :
  let s := wrap32 (env_micros (w_env w) (w_clk w)) in
  let t := wrap32 (s + CAP_TIMEOUT_US) in
  pollsBelow (w_env w) (S (w_clk w)) (w_adc w) t k ->
  t <= wrap32 (env_micros (w_env w) (S (w_clk w) + k)) ->
  (k < fuel)%nat ->
  exists w',
    measureChargeTime fuel w = Some (0, w') /\
    w_adc w' = (w_adc w + k)%nat.
Proof.
  intros s t Hbelow Hdl Hfuel.
  destruct (measureChargeTime_unfold fuel w) as (w0 & He & Hc & Ha & _ & Heq).
  rewrite Heq. fold s. fold t.
  destruct (pollLoop_timeout k s t w0 fuel) as (w' & Hrun & Hadc & _).
  - rewrite He, Hc, Ha. exact Hbelow.
  - rewrite He, Hc. exact Hdl.
  - exact Hfuel.
  - exists w'. split; [exact Hrun|]. rewrite Hadc, Ha. reflexivity.
Qed.

(** The call sees the threshold at turn [k] of its loop and returns the
    32-bit time elapsed since the start timestamp. *)
Lemma measureChargeTime_cross (k fuel : nat) (w : World) :
  let s := wrap32 (env_micros (w_env w) (w_clk w)) in
  let t := wrap32 (s + CAP_TIMEOUT_US) in
  pollsBelow (w_env w) (S (w_clk w)) (w_adc w) t k ->
  wrap32 (env_micros (w_env w) (S (w_clk w) + k)) < t ->
  CAP_ADC_THRESHOLD <= env_adc (w_env w) (w_adc w + k) ->
  (k < fuel)%nat ->
  exists w',
    measureChargeTime fuel w =
      Some (elapsedUs s (wrap32 (env_micros (w_env w) (S (w_clk w) + k + 1))), w') /\
    w_adc w' = (w_adc w + k + 1)%nat.
Proof.
  intros s t Hbelow Hdl Hth Hfuel.
  destruct (measureChargeTime_unfold fuel w) as (w0 & He & Hc & Ha & _ & Heq).
  rewrite Heq. fold s. fold t.
  destruct (pollLoop_cross k s t w0 fuel) as (w' & Hrun & Hadc & _).
  - rewrite He, Hc, Ha. exact Hbelow.
  - rewrite He, Hc. exact Hdl.
  - rewrite He, Ha. exact Hth.
  - exact Hfuel.
  - exists w'. split.
    + rewrite Hrun, He, Hc. reflexivity.
    + rewrite Hadc, Ha. reflexivity.
Qed.

(** The capacitance of the mean time is not the mean of the capacitances:
    with samples of 10 and 100 microseconds the first is about 16 pF and
    the second about 23 pF. *)
Example capacitance_of_mean_differs :
  let ts := [10; 100; 0; 0; 0] in
  charge_time_us (averagedResult ts) = 55 /\
  (capacitance_pf (averagedResult ts) < 17)%Q /\
  (22 < meanOfCapacitances ts)%Q.
Proof. cbv zeta. split; [reflexivity|]. split; vm_compute; reflexivity. Qed.

(** ** Runs end *)

(** A poll loop that meets the deadline or the threshold at turn [k] at
    the latest ends, given more than [k] turns. *)
Lemma pollLoop_total (k : nat) :
  forall (fuel : nat) (s t : Z) (w : World),
    (k < fuel)%nat ->
    (t <= wrap32 (env_micros (w_env w) (w_clk w + k)) \/
     CAP_ADC_THRESHOLD <= env_adc (w_env w) (w_adc w + k)) ->
    exists r w', pollLoop fuel s t w = Some (r, w').
Proof.
  induction k as [|k IH]; intros fuel s t w Hfuel Hexit;
    (destruct fuel as [|fuel]; [lia|]); cbn;
    destruct (wrap32 (env_micros (w_env w) (w_clk w)) <? t) eqn:Hdl; cbn;
    try (eexists; eexists; reflexivity);
    destruct (env_adc (w_env w) (w_adc w) >=? CAP_ADC_THRESHOLD) eqn:Hth; cbn;
    try (eexists; eexists; reflexivity).
  - exfalso. rewrite !Nat.add_0_r in Hexit.
    apply Z.ltb_lt in Hdl. rewrite Z.geb_leb in Hth. apply Z.leb_gt in Hth.
    lia.
  - apply IH; [lia|]. cbn. rewrite !Nat.add_succ_r in Hexit. exact Hexit.
Qed.

Lemma measureChargeTime_returns (fuel : nat) (w : World) :
  cyclesEnd (w_env w) fuel ->
  exists r w', measureChargeTime fuel w = Some (r, w').
Proof.
  intros Hlive.
  destruct (measureChargeTime_unfold fuel w) as (w0 & He & Hc & Ha & _ & Heq).
  rewrite Heq.
  destruct (Hlive (w_clk w) (w_adc w)) as (k & Hk & Hexit).
  apply (pollLoop_total k); [exact Hk|].
  rewrite He, Hc, Ha. exact Hexit.
Qed.

Lemma chargeTimes_returns (fuel n : nat) :
  forall w : World,
    cyclesEnd (w_env w) fuel ->
    exists ts w', chargeTimes fuel n w = Some (ts, w').
Proof.
  induction n as [|n IH]; intros w Hlive.
  - eexists. eexists. reflexivity.
  - rewrite chargeTimes_S.
    destruct (measureChargeTime_returns fuel w Hlive) as (t & w1 & Hm).
    rewrite Hm.
    apply measureChargeTime_post in Hm. destruct Hm as (_ & _ & He & _).
    destruct (IH (log (EvDelay 10) w1)) as (ts & w' & Hc).
    + cbn. rewrite He. exact Hlive.
    + rewrite Hc. eexists. eexists. reflexivity.
Qed.

(** As long as every cycle ends, the capacitance test returns. *)
Lemma runCapacitanceTest_returns (fuel : nat) (w : World) :
  cyclesEnd (w_env w) fuel ->
  exists b w', runCapacitanceTest fuel w = Some (b, w').
Proof.
  intros Hlive.
  rewrite runCapacitanceTest_phases, measureCapacitance_chargeTimes.
  destruct (chargeTimes_returns fuel (Z.to_nat CAP_NUM_SAMPLES)
              (after enterCapMode w) Hlive) as (ts & w1 & Hc).
  rewrite Hc. eexists. eexists. reflexivity.
Qed.

(** With the reset routine of the specification, a capacitance test that
    ends leaves the idle topology, whatever it returns. *)
Lemma runCapacitanceTest_idle (fuel : nat) (w : World) (b : bool) (w' : World) :
  env_reset (w_env w) = idleReset ->
  runCapacitanceTest fuel w = Some (b, w') ->
  idleTopology (w_pins w').
Proof.
  intros Hreset H. apply runCapacitanceTest_inv in H.
  destruct H as (result & wm & quiet & _ & Hw' & He & Hcap & _).
  subst w'. cbn. rewrite He, Hreset.
  destruct Hcap as (H1 & H2 & H3).
  unfold idleTopology, contPinsIdle, capPinsIdle. cbn.
  repeat split; assumption.
Qed.

(** A cable that is above the threshold at every conversion ends every
    cycle at the first turn. *)
Example crossingAfter_cyclesEnd (t : Z) :
  cyclesEnd (w_env (crossingAfter t)) 1.
Proof.
  intros c a. exists 0%nat. split; [lia|]. right. cbn. discriminate.
Qed.

(** ** The concrete values again, in IEEE 754 arithmetic *)

(** With [double] as binary32 (AVR) and as binary64: the timeout sentinel
    and the charge times 1, 2 and 30 all give +0, and 31 gives a positive
    value. *)
Example ieee_clamped_values :
  forall format, In format [(24, 128); (53, 1024)] ->
    let f := Ieee.calculateCapacitance (fst format) (snd format) in
    f 0 = S754_zero false /\
    f 1 = S754_zero false /\
    f 2 = S754_zero false /\
    f 30 = S754_zero false /\
    SFltb (S754_zero false) (f 31) = true.
Proof.
  intros format [<-|[<-|[]]]; vm_compute; repeat split.
Qed.

(** An averaged charge time of 3000 microseconds is classified in range,
    between 1947 and 1948 pF. *)
Example ieee_scenario_3000 :
  forall format, In format [(24, 128); (53, 1024)] ->
    let c := Ieee.calculateCapacitance (fst format) (snd format) 3000 in
    Ieee.inRangePf c = true /\
    SFltb (Ieee.ofZ 24 128 1947) c = true /\
    SFltb c (Ieee.ofZ 24 128 1948) = true.
Proof.
  intros format [<-|[<-|[]]]; vm_compute; repeat split.
Qed.

(** An averaged charge time of 15 microseconds makes the calibration emit
    exactly 20 pF. *)
Example ieee_calibration_15 :
  forall format, In format [(24, 128); (53, 1024)] ->
    Ieee.rawPf (fst format) (snd format)
      (Ieee.calculateCapacitance (fst format) (snd format) 15)
    = Ieee.ofZ 24 128 20.
Proof.
  intros format [<-|[<-|[]]]; vm_compute; reflexivity.
Qed.

(** ** More about calculateCapacitance *)

Lemma linear_ge_iff (t n : Z) :
  (inject_Z n <= inject_Z t * pfPerMicrosecond - 20)%Q <->
  (n + 20) * 15246 <= t * 10000.
Proof.
  unfold Qle, pfPerMicrosecond. cbn. lia.
Qed.

Lemma linear_le_iff (t n : Z) :
  (inject_Z t * pfPerMicrosecond - 20 <= inject_Z n)%Q <->
  t * 10000 <= (n + 20) * 15246.
Proof.
  unfold Qle, pfPerMicrosecond. cbn. lia.
Qed.

(** Above the clamp the function is the line itself. *)
Lemma calculateCapacitance_unclamped (t : Z) :
  31 <= t ->
  (calculateCapacitance t == inject_Z t * pfPerMicrosecond - 20)%Q.
Proof.
  intros Ht. rewrite calculateCapacitance_linear by lia.
  apply Q.max_r. apply (linear_ge_iff t 0). lia.
Qed.

(** At and below 30 microseconds it is 0. *)
Lemma calculateCapacitance_clamped (t : Z) :
  0 <= t <= 30 ->
  (calculateCapacitance t == 0)%Q.
Proof.
  intros Ht. destruct (Z.eq_dec t 0) as [->|Hnz]; [reflexivity|].
  rewrite calculateCapacitance_linear by exact Hnz.
  apply Q.max_l. apply (linear_le_iff t 0). lia.
Qed.

(** X1: the capacitance [calculateCapacitance] returns for a charge time
    t >= 0 is never negative and never above the raw capacitance
    t/(R*0.693). *)
Theorem calculateCapacitance_bounds (t : Z) :
  0 <= t ->
  (0 <= calculateCapacitance t /\ calculateCapacitance t <= rawCapacitancePf t)%Q.
Proof.
  intros Ht.
  assert (Hraw : (0 <= rawCapacitancePf t)%Q).
  { rewrite rawCapacitancePf_linear.
    apply Qmult_le_0_compat; [|discriminate].
    change 0%Q with (inject_Z 0). rewrite <- Zle_Qle. exact Ht. }
  destruct (Z.eq_dec t 0) as [->|Hnz].
  - split; [apply Qle_refl|exact Hraw].
  - rewrite (calculateCapacitance_nonzero t Hnz). unfold correctedCapacitancePf.
    split; [apply Q.le_max_l|].
    apply Q.max_lub; [exact Hraw|].
    rewrite <- (Qplus_0_r (rawCapacitancePf t)) at 2.
    unfold Qminus. apply Qplus_le_r. discriminate.
Qed.

Lemma calculateCapacitance_bounds_witness :
  (0 <= calculateCapacitance 3000 /\
   calculateCapacitance 3000 <= rawCapacitancePf 3000)%Q.
Proof. apply (calculateCapacitance_bounds 3000). discriminate. Defined.

(** X2: for a charge time t >= 0 the result is 0 exactly when t is at most
    30 microseconds: the timeout value 0 and every raw capacitance up to
    the 20 pF stray offset are reported alike. *)
Theorem calculateCapacitance_zero_iff (t : Z) :
  0 <= t ->
  ((calculateCapacitance t == 0)%Q <-> t <= 30).
Proof.
  intros Ht. split.
  - intros Hz. destruct (Z_le_gt_dec t 30) as [Hle|Hgt]; [exact Hle|].
    exfalso. rewrite calculateCapacitance_unclamped in Hz by lia.
    assert (Hpos : (inject_Z 1 <= inject_Z t * pfPerMicrosecond - 20 + 1)%Q).
    { rewrite <- (Qplus_0_l (inject_Z 1)) at 1.
      apply Qplus_le_l. apply (linear_ge_iff t 0). lia. }
    assert (Hstrict : ~ (inject_Z t * pfPerMicrosecond - 20 <= inject_Z 0)%Q).
    { rewrite linear_le_iff. lia. }
    apply Hstrict. rewrite Hz. apply Qle_refl.
  - intros Hle. apply calculateCapacitance_clamped. lia.
Qed.

Lemma calculateCapacitance_zero_iff_witness :
  (calculateCapacitance 30 == 0)%Q <-> 30 <= 30.
Proof. apply (calculateCapacitance_zero_iff 30). discriminate. Defined.

(** The pass window of the range test, in microseconds of charge time. *)
Lemma inRangePf_window (t : Z) :
  0 <= t ->
  (inRangePf (calculateCapacitance t) = true <-> 107 <= t <= 3079).
Proof.
  intros Ht. rewrite inRangePf_iff.
  destruct (Z_le_gt_dec t 30) as [Hlow|Hhigh].
  - rewrite (calculateCapacitance_clamped t) by lia.
    split; [intros [H _]; vm_compute in H; exfalso; apply H; reflexivity|lia].
  - rewrite (calculateCapacitance_unclamped t) by lia.
    change 50%Q with (inject_Z 50). change 2000%Q with (inject_Z 2000).
    rewrite linear_ge_iff, linear_le_iff. lia.
Qed.

Lemma calculateCapacitance_nonneg (t : Z) : (0 <= calculateCapacitance t)%Q.
Proof.
  destruct (Z.eq_dec t 0) as [->|Hnz]; [apply Qle_refl|].
  rewrite (calculateCapacitance_nonzero t Hnz). apply Q.le_max_l.
Qed.

(** X3: a charge time t >= 0 gives a capacitance in the 50-2000 pF range
    exactly when 107 <= t <= 3079 microseconds. *)
Theorem inRange_charge_times (t : Z) :
  0 <= t ->
  (inRangePf (calculateCapacitance t) = true <-> 107 <= t <= 3079).
Proof. exact (inRangePf_window t). Qed.

Lemma inRange_charge_times_witness :
  inRangePf (calculateCapacitance 107) = true <-> 107 <= 107 <= 3079.
Proof. apply (inRange_charge_times 107). discriminate. Defined.

(** ** More about measureChargeTime *)

Lemma onlyCapPinsChanged_refl (ps : Pins) : onlyCapPinsChanged ps ps.
Proof. split; intros; reflexivity. Qed.

Lemma onlyCapPinsChanged_trans (ps1 ps2 ps3 : Pins) :
  onlyCapPinsChanged ps1 ps2 -> onlyCapPinsChanged ps2 ps3 ->
  onlyCapPinsChanged ps1 ps3.
Proof.
  intros [Hd1 Hl1] [Hd2 Hl2]. split; intros p.
  - intros Hp. rewrite Hd2, Hd1 by assumption. reflexivity.
  - intros Hc Hd. rewrite Hl2, Hl1 by assumption. reflexivity.
Qed.

(** The three statements of both exits touch the capacitance pins only. *)
Lemma stop_onlyCapPins (ps : Pins) :
  onlyCapPinsChanged ps
    (set_level CAP_DISCHARGE_PIN LOW
       (set_dir CAP_DISCHARGE_PIN OUTPUT
          (set_level CAP_CHARGE_PIN LOW ps))).
Proof.
  split; intros p; cbn.
  - intros Hp. destruct (Pin_eq_dec p CAP_DISCHARGE_PIN); [contradiction|reflexivity].
  - intros Hc Hd.
    destruct (Pin_eq_dec p CAP_DISCHARGE_PIN); [contradiction|].
    destruct (Pin_eq_dec p CAP_CHARGE_PIN); [contradiction|reflexivity].
Qed.

Lemma start_onlyCapPins (ps : Pins) :
  onlyCapPinsChanged ps
    (set_level CAP_CHARGE_PIN HIGH
       (set_dir CAP_DISCHARGE_PIN INPUT
          (set_level CAP_DISCHARGE_PIN LOW
             (set_level CAP_CHARGE_PIN LOW ps)))).
Proof.
  split; intros p; cbn.
  - intros Hp. destruct (Pin_eq_dec p CAP_DISCHARGE_PIN); [contradiction|reflexivity].
  - intros Hc Hd.
    destruct (Pin_eq_dec p CAP_CHARGE_PIN); [contradiction|].
    destruct (Pin_eq_dec p CAP_DISCHARGE_PIN); [contradiction|reflexivity].
Qed.

Lemma pollLoop_frame (fuel : nat) :
  forall (s t : Z) (w : World) (r : Z) (w' : World),
    pollLoop fuel s t w = Some (r, w') ->
    onlyCapPinsChanged (w_pins w) (w_pins w') /\
    (w_clk w < w_clk w')%nat /\
    (w_adc w <= w_adc w')%nat.
Proof.
  induction fuel as [|fuel IH]; intros s t w r w' H; [discriminate|].
  cbn in H.
  destruct (wrap32 (env_micros (w_env w) (w_clk w)) <? t).
  - cbn in H.
    destruct (env_adc (w_env w) (w_adc w) >=? CAP_ADC_THRESHOLD).
    + cbn in H. inversion H; subst; clear H. cbn.
      split; [apply stop_onlyCapPins|lia].
    + apply IH in H. cbn in H. destruct H as (Hf & Hc & Ha).
      split; [exact Hf|lia].
  - cbn in H. inversion H; subst; clear H. cbn.
    split; [apply stop_onlyCapPins|lia].
Qed.

Lemma measureChargeTime_frame (fuel : nat) (w : World) (r : Z) (w' : World) :
  measureChargeTime fuel w = Some (r, w') ->
  onlyCapPinsChanged (w_pins w) (w_pins w') /\
  (w_clk w + 2 <= w_clk w')%nat /\
  (w_adc w <= w_adc w')%nat.
Proof.
  intros H. cbn in H. apply pollLoop_frame in H. cbn in H.
  destruct H as (Hf & Hc & Ha).
  split; [|lia].
  eapply onlyCapPinsChanged_trans; [apply start_onlyCapPins|exact Hf].
Qed.

(** X5: a [measureChargeTime] call that ends has changed nothing but the
    levels of the charge and discharge pins and the direction of the
    discharge pin: relay pins, continuity pins and the direction of the
    charge pin are as before.  It returns a 32-bit value, leaves the
    discharge pin an OUTPUT driven LOW and the charge pin driven LOW, and
    has read the clock at least twice. *)
Theorem measureChargeTime_touches_cap_pins_only
        (fuel : nat) (w : World) (r : Z) (w' : World) :
  measureChargeTime fuel w = Some (r, w') ->
  onlyCapPinsChanged (w_pins w) (w_pins w') /\
  capPinsIdle (w_pins w') /\
  u32 r /\
  w_env w' = w_env w /\
  (w_clk w + 2 <= w_clk w')%nat.
Proof.
  intros H.
  destruct (measureChargeTime_frame _ _ _ _ H) as (Hf & Hc & _).
  destruct (measureChargeTime_post _ _ _ _ H) as (Hidle & Hr & He & _).
  repeat split; try assumption; try apply Hf; try apply Hidle; apply Hr.
Qed.

Lemma measureChargeTime_touches_cap_pins_only_witness :
  onlyCapPinsChanged (w_pins instantCrossing)
    (w_pins (after (measureChargeTime 1) instantCrossing)) /\
  capPinsIdle (w_pins (after (measureChargeTime 1) instantCrossing)) /\
  u32 0 /\
  w_env (after (measureChargeTime 1) instantCrossing) = w_env instantCrossing /\
  (w_clk instantCrossing + 2 <= w_clk (after (measureChargeTime 1) instantCrossing))%nat.
Proof.
  apply (measureChargeTime_touches_cap_pins_only 1 instantCrossing 0).
  vm_compute. reflexivity.
Defined.

(** X6: if in the first [k] turns of the loop the clock stays below the
    deadline and the sense pin below the threshold, and the clock reading
    of turn [k] has reached the deadline, the call returns 0 once it is
    given more than [k] turns: after exactly [k] conversions and [k + 2]
    clock readings. *)
Theorem measureChargeTime_times_out (k fuel : nat) (w : World) :
  let s := wrap32 (env_micros (w_env w) (w_clk w)) in
  let t := wrap32 (s + CAP_TIMEOUT_US) in
  pollsBelow (w_env w) (S (w_clk w)) (w_adc w) t k ->
  t <= wrap32 (env_micros (w_env w) (S (w_clk w) + k)) ->
  (k < fuel)%nat ->
  exists w',
    measureChargeTime fuel w = Some (0, w') /\
    w_adc w' = (w_adc w + k)%nat /\
    w_clk w' = (w_clk w + k + 2)%nat.
Proof.
  intros s t Hbelow Hdl Hfuel.
  destruct (measureChargeTime_unfold fuel w) as (w0 & He & Hc & Ha & _ & Heq).
  rewrite Heq. fold s. fold t.
  destruct (pollLoop_timeout k s t w0 fuel) as (w' & Hrun & Hadc & Hclk).
  - rewrite He, Hc, Ha. exact Hbelow.
  - rewrite He, Hc. exact Hdl.
  - exact Hfuel.
  - exists w'. split; [exact Hrun|]. rewrite Hadc, Hclk, Ha, Hc. lia.
Qed.

Lemma measureChargeTime_times_out_witness :
  exists w',
    measureChargeTime 3 (scripted [1000; 1100; 50000; 101000] [10; 20])
      = Some (0, w') /\
    w_adc w' = 2%nat /\
    w_clk w' = 4%nat.
Proof.
  apply (measureChargeTime_times_out 2 3
           (scripted [1000; 1100; 50000; 101000] [10; 20])).
  - intros j Hj. destruct j as [|[|j]]; [vm_compute; split; reflexivity ..|lia].
  - vm_compute. discriminate.
  - lia.
Defined.

(** X7: if the first [k] turns find neither the deadline nor the
    threshold and turn [k] reads the sense pin at or above 512 before the
    deadline, the call returns the 32-bit difference between the clock
    reading taken right after that conversion and the start timestamp:
    after [k + 1] conversions and [k + 3] clock readings. *)
Theorem measureChargeTime_crosses (k fuel : nat) (w : World) :
  let s := wrap32 (env_micros (w_env w) (w_clk w)) in
  let t := wrap32 (s + CAP_TIMEOUT_US) in
  pollsBelow (w_env w) (S (w_clk w)) (w_adc w) t k ->
  wrap32 (env_micros (w_env w) (S (w_clk w) + k)) < t ->
  CAP_ADC_THRESHOLD <= env_adc (w_env w) (w_adc w + k) ->
  (k < fuel)%nat ->
  exists w',
    measureChargeTime fuel w =
      Some (wrap32 (wrap32 (env_micros (w_env w) (S (w_clk w) + k + 1)) - s), w') /\
    w_adc w' = (w_adc w + k + 1)%nat /\
    w_clk w' = (w_clk w + k + 3)%nat.
Proof.
  intros s t Hbelow Hdl Hth Hfuel.
  destruct (measureChargeTime_unfold fuel w) as (w0 & He & Hc & Ha & _ & Heq).
  rewrite Heq. fold s. fold t.
  destruct (pollLoop_cross k s t w0 fuel) as (w' & Hrun & Hadc & Hclk).
  - rewrite He, Hc, Ha. exact Hbelow.
  - rewrite He, Hc. exact Hdl.
  - rewrite He, Ha. exact Hth.
  - exact Hfuel.
  - exists w'. split.
    + rewrite Hrun, He, Hc. reflexivity.
    + rewrite Hadc, Hclk, Ha, Hc. lia.
Qed.

Lemma measureChargeTime_crosses_witness :
  exists w',
    measureChargeTime 2 (scripted [1000; 1100; 1200; 1312] [10; 600])
      = Some (312, w') /\
    w_adc w' = 2%nat /\
    w_clk w' = 4%nat.
Proof.
  apply (measureChargeTime_crosses 1 2
           (scripted [1000; 1100; 1200; 1312] [10; 600])).
  - intros j Hj. destruct j as [|j]; [vm_compute; split; reflexivity|lia].
  - vm_compute. reflexivity.
  - vm_compute. discriminate.
  - lia.
Defined.

Lemma wrap32_negative (z : Z) :
  - 2 ^ 32 <= z < 0 -> wrap32 z = z + 2 ^ 32.
Proof.
  intros Hz. unfold wrap32. symmetry.
  apply Z.mod_unique with (q := -1); lia.
Qed.

(** X8: when neither the deadline nor the clock wraps, the timeout is 100
    ms: if every clock reading of the loop is at or after the start
    timestamp, the first [k] turns see less than 100000 microseconds
    elapsed and the sense pin below the threshold, and turn [k] sees
    100000 microseconds or more elapsed, the call returns 0 after exactly
    [k] conversions. *)
Theorem measureChargeTime_timeout_is_100ms (k fuel : nat) (w : World) :
  let s := wrap32 (env_micros (w_env w) (w_clk w)) in
  let reading j := wrap32 (env_micros (w_env w) (S (w_clk w) + j)) in
  s + CAP_TIMEOUT_US < 2 ^ 32 ->
  (forall j, (j <= k)%nat -> s <= reading j) ->
  (forall j, (j < k)%nat ->
     elapsedUs s (reading j) < CAP_TIMEOUT_US /\
     env_adc (w_env w) (w_adc w + j) < CAP_ADC_THRESHOLD) ->
  CAP_TIMEOUT_US <= elapsedUs s (reading k) ->
  (k < fuel)%nat ->
  exists w',
    measureChargeTime fuel w = Some (0, w') /\
    w_adc w' = (w_adc w + k)%nat.
Proof.
  intros s reading Hfit Hmono Hbelow Hdl Hfuel.
  assert (Hs : u32 s) by apply wrap32_range.
  assert (Ht : wrap32 (s + CAP_TIMEOUT_US) = s + CAP_TIMEOUT_US).
  { apply wrap32_small. unfold u32, CAP_TIMEOUT_US in *. lia. }
  assert (Hel : forall j, (j <= k)%nat -> elapsedUs s (reading j) = reading j - s).
  { intros j Hj. unfold elapsedUs. apply wrap32_small.
    pose proof (wrap32_range (env_micros (w_env w) (S (w_clk w) + j))) as Hr.
    specialize (Hmono j Hj). unfold reading, u32 in *. lia. }
  apply (measureChargeTime_timeout k fuel w).
  - intros j Hj. destruct (Hbelow j Hj) as [He Ha].
    rewrite Hel in He by lia. fold s. rewrite Ht.
    split; [unfold reading in He; lia|exact Ha].
  - fold s. rewrite Ht. rewrite Hel in Hdl by lia. unfold reading in Hdl. lia.
  - exact Hfuel.
Qed.

Lemma measureChargeTime_timeout_is_100ms_witness :
  exists w',
    measureChargeTime 3 (scripted [1000; 1100; 50000; 101000] [10; 20])
      = Some (0, w') /\
    w_adc w' = 2%nat.
Proof.
  apply (measureChargeTime_timeout_is_100ms 2 3
           (scripted [1000; 1100; 50000; 101000] [10; 20])).
  - reflexivity.
  - intros j Hj. destruct j as [|[|[|j]]]; [vm_compute; discriminate ..|lia].
  - intros j Hj. destruct j as [|[|j]]; [vm_compute; split; reflexivity ..|lia].
  - vm_compute. discriminate.
  - lia.
Defined.

(** X9: the timeout can be overrun.  When the deadline does not wrap but
    the clock does before a loop test (the reading is below the start
    timestamp), more than 100000 microseconds have elapsed and the test
    [micros() < timeout] still succeeds: the sense pin is converted, and a
    reading at or above the threshold is returned as a charge time. *)
Theorem measureChargeTime_overruns_timeout (fuel : nat) (w : World) :
  let s := wrap32 (env_micros (w_env w) (w_clk w)) in
  let firstTest := wrap32 (env_micros (w_env w) (S (w_clk w))) in
  let atCrossing := wrap32 (env_micros (w_env w) (S (S (w_clk w)))) in
  s + CAP_TIMEOUT_US < 2 ^ 32 ->
  firstTest < s ->
  CAP_ADC_THRESHOLD <= env_adc (w_env w) (w_adc w) ->
  CAP_TIMEOUT_US < elapsedUs s firstTest /\
  exists w',
    measureChargeTime (S fuel) w = Some (elapsedUs s atCrossing, w') /\
    w_adc w' = S (w_adc w).
Proof.
  intros s firstTest atCrossing Hfit Hwrapped Hth.
  assert (Hs : u32 s) by apply wrap32_range.
  assert (Hf : u32 firstTest) by apply wrap32_range.
  assert (Ht : wrap32 (s + CAP_TIMEOUT_US) = s + CAP_TIMEOUT_US).
  { apply wrap32_small. unfold u32, CAP_TIMEOUT_US in *. lia. }
  split.
  - unfold elapsedUs. rewrite wrap32_negative by (unfold u32 in *; lia).
    unfold u32, CAP_TIMEOUT_US in *. lia.
  - destruct (measureChargeTime_cross 0 (S fuel) w) as (w' & Hrun & Hadc).
    + intros j Hj. lia.
    + fold s. rewrite Ht, Nat.add_0_r. fold firstTest.
      unfold CAP_TIMEOUT_US. lia.
    + rewrite Nat.add_0_r. exact Hth.
    + lia.
    + exists w'. split.
      * rewrite Hrun. fold s. rewrite Nat.add_0_r, Nat.add_1_r. reflexivity.
      * rewrite Hadc. lia.
Qed.

Lemma measureChargeTime_overruns_timeout_witness :
  CAP_TIMEOUT_US < elapsedUs (2 ^ 32 - 200000) 5 /\
  exists w',
    measureChargeTime 1 (scripted [2 ^ 32 - 200000; 2 ^ 32 + 5; 2 ^ 32 + 120] [600])
      = Some (200120, w') /\
    w_adc w' = 1%nat.
Proof.
  apply (measureChargeTime_overruns_timeout 0
           (scripted [2 ^ 32 - 200000; 2 ^ 32 + 5; 2 ^ 32 + 120] [600])).
  - reflexivity.
  - reflexivity.
  - vm_compute. discriminate.
Defined.

(** ** The result depends on the readings only *)

Lemma sameOracle_refl (w : World) : sameOracle w w.
Proof. repeat split. Qed.

Lemma sameOracle_sym (w1 w2 : World) : sameOracle w1 w2 -> sameOracle w2 w1.
Proof. intros (He & Hc & Ha). repeat split; congruence. Qed.

Lemma sameOracle_trans (w1 w2 w3 : World) :
  sameOracle w1 w2 -> sameOracle w2 w3 -> sameOracle w1 w3.
Proof. intros (? & ? & ?) (? & ? & ?). repeat split; congruence. Qed.

Lemma pollLoop_sameOracle (fuel : nat) :
  forall (s t : Z) (w1 w2 : World) (r : Z) (w1' : World),
    sameOracle w1 w2 ->
    pollLoop fuel s t w1 = Some (r, w1') ->
    exists w2', pollLoop fuel s t w2 = Some (r, w2') /\ sameOracle w1' w2'.
Proof.
  induction fuel as [|fuel IH]; intros s t w1 w2 r w1' Hsame H; [discriminate|].
  destruct w1 as [e1 p1 c1 a1 tr1], w2 as [e2 p2 c2 a2 tr2].
  destruct Hsame as (He & Hc & Ha). cbn in He, Hc, Ha. subst e2 c2 a2.
  cbn in H |- *.
  destruct (wrap32 (env_micros e1 c1) <? t).
  - cbn in H |- *.
    destruct (env_adc e1 a1 >=? CAP_ADC_THRESHOLD).
    + cbn in H |- *. inversion H; subst; clear H.
      eexists. split; [reflexivity|]. split; [|split]; reflexivity.
    + eapply IH; [|exact H]. split; [|split]; reflexivity.
  - cbn in H |- *. inversion H; subst; clear H.
    eexists. split; [reflexivity|]. split; [|split]; reflexivity.
Qed.

Lemma measureChargeTime_sameOracle (fuel : nat) (w1 w2 : World) (r : Z) (w1' : World) :
  sameOracle w1 w2 ->
  measureChargeTime fuel w1 = Some (r, w1') ->
  exists w2', measureChargeTime fuel w2 = Some (r, w2') /\ sameOracle w1' w2'.
Proof.
  intros (He & Hc & Ha) H.
  destruct (measureChargeTime_unfold fuel w1) as (u1 & He1 & Hc1 & Ha1 & _ & Heq1).
  destruct (measureChargeTime_unfold fuel w2) as (u2 & He2 & Hc2 & Ha2 & _ & Heq2).
  rewrite Heq1 in H. rewrite Heq2, <- He, <- Hc.
  eapply pollLoop_sameOracle; [|exact H].
  split; [|split]; congruence.
Qed.

Lemma chargeTimes_sameOracle (fuel n : nat) :
  forall (w1 w2 : World) (ts : list Z) (w1' : World),
    sameOracle w1 w2 ->
    chargeTimes fuel n w1 = Some (ts, w1') ->
    exists w2', chargeTimes fuel n w2 = Some (ts, w2') /\ sameOracle w1' w2'.
Proof.
  induction n as [|n IH]; intros w1 w2 ts w1' Hsame H.
  - inversion H; subst. exists w2. split; [reflexivity|exact Hsame].
  - rewrite chargeTimes_S in H |- *.
    destruct (measureChargeTime fuel w1) as [[t u1]|] eqn:Hm; [|discriminate].
    destruct (measureChargeTime_sameOracle _ _ _ _ _ Hsame Hm) as (u2 & Hm2 & Hsu).
    rewrite Hm2.
    destruct (chargeTimes fuel n (log (EvDelay 10) u1)) as [[ts0 v1]|] eqn:Hc;
      [|discriminate].
    inversion H; subst; clear H.
    destruct (IH (log (EvDelay 10) u1) (log (EvDelay 10) u2) ts0 w1') as (v2 & Hc2 & Hsv).
    + exact Hsu.
    + exact Hc.
    + rewrite Hc2. exists v2. split; [reflexivity|exact Hsv].
Qed.

Lemma measureCapacitance_sameOracle
      (fuel : nat) (w1 w2 : World) (result : CapacitanceResult) (w1' : World) :
  sameOracle w1 w2 ->
  measureCapacitance fuel w1 = Some (result, w1') ->
  exists w2', measureCapacitance fuel w2 = Some (result, w2') /\ sameOracle w1' w2'.
Proof.
  intros Hsame H. rewrite measureCapacitance_chargeTimes in H |- *.
  destruct (chargeTimes fuel (Z.to_nat CAP_NUM_SAMPLES) w1) as [[ts u1]|] eqn:Hc;
    [|discriminate].
  inversion H; subst; clear H.
  destruct (chargeTimes_sameOracle _ _ _ _ _ _ Hsame Hc) as (u2 & Hc2 & Hsu).
  rewrite Hc2. exists u2. split; [reflexivity|exact Hsu].
Qed.

(** ** More about measureCapacitance *)

Lemma validTimes_length (ts : list Z) :
  (List.length (validTimes ts) <= List.length ts)%nat.
Proof. apply filter_length_le. Qed.

Lemma validTimes_positive (ts : list Z) :
  Forall u32 ts -> Forall (fun t => 1 <= t < 2 ^ 32) (validTimes ts).
Proof.
  induction 1 as [|t ts Ht Hts IH]; cbn; [constructor|].
  destruct (Z.eqb_spec t 0) as [->|Hnz]; cbn; [exact IH|].
  constructor; [unfold u32 in Ht; lia|exact IH].
Qed.

Lemma sumZ_bounds (lo hi : Z) (l : list Z) :
  Forall (fun t => lo <= t <= hi) l ->
  lo * Z.of_nat (List.length l) <= sumZ l <= hi * Z.of_nat (List.length l).
Proof.
  induction 1 as [|t l Ht Hl IH]; cbn [sumZ fold_right List.length]; [lia|].
  fold (sumZ l). rewrite Nat2Z.inj_succ. lia.
Qed.

(** X10: the result of a measurement that ends is well formed: the number
    of samples is between 0 and 5, the result is valid exactly when that
    number is positive, an invalid result has every field 0, the averaged
    time is a 32-bit value and the capacitance is never negative. *)
Theorem measureCapacitance_result_wellformed
        (fuel : nat) (w : World) (result : CapacitanceResult) (w' : World) :
  measureCapacitance fuel w = Some (result, w') ->
  0 <= num_samples result <= 5 /\
  (valid result = true <-> 0 < num_samples result) /\
  (valid result = false ->
   capacitance_pf result = 0%Q /\ charge_time_us result = 0 /\
   num_samples result = 0) /\
  u32 (charge_time_us result) /\
  (0 <= capacitance_pf result)%Q.
Proof.
  intros H. apply measureCapacitance_post in H.
  destruct H as (ts & _ & Hres & Hlen & _).
  subst result. pose proof (validTimes_length ts) as Hn. rewrite Hlen in Hn.
  unfold resultOf. cbv zeta.
  set (n := Z.of_nat (List.length (validTimes ts))) in *.
  assert (Hn' : 0 <= n <= 5) by (subst n; lia).
  destruct (Z.gtb_spec n 0) as [Hpos|Hzero]; cbn.
  - split; [lia|]. split; [split; [lia|reflexivity]|].
    split; [discriminate|]. split; [|apply calculateCapacitance_nonneg].
    pose proof (wrap32_range (sumZ (validTimes ts))) as Hs. unfold u32 in *.
    split; [apply Z.div_pos; lia|].
    apply Z.le_lt_trans with (wrap32 (sumZ (validTimes ts))); [|lia].
    apply Z.div_le_upper_bound; [lia|]. nia.
  - split; [lia|]. split; [split; [discriminate|lia]|].
    split; [intros _; repeat split|].
    split; [unfold u32; lia|apply Qle_refl].
Qed.

Lemma measureCapacitance_result_wellformed_witness :
  let result := mkResult true (calculateCapacitance 3066) 3066 3 in
  0 <= num_samples result <= 5 /\
  (valid result = true <-> 0 < num_samples result) /\
  (valid result = false ->
   capacitance_pf result = 0%Q /\ charge_time_us result = 0 /\
   num_samples result = 0) /\
  u32 (charge_time_us result) /\
  (0 <= capacitance_pf result)%Q.
Proof.
  apply (measureCapacitance_result_wellformed 10 mixedSamples _
           (after (measureCapacitance 10) mixedSamples)).
  vm_compute. reflexivity.
Defined.

(** X11: as long as the sum of the valid charge times fits 32 bits, the
    averaged time of a measurement with a valid sample lies between any
    two bounds that hold for every valid sample, and is at least 1: a
    valid result never carries the timeout value 0. *)
Theorem measureCapacitance_mean_between
        (fuel : nat) (w : World) (ts : list Z) (w' : World) (lo hi : Z) :
  chargeTimes fuel 5 w = Some (ts, w') ->
  sumZ (validTimes ts) < 2 ^ 32 ->
  validTimes ts <> [] ->
  Forall (fun t => lo <= t <= hi) (validTimes ts) ->
  exists result,
    measureCapacitance fuel w = Some (result, w') /\
    valid result = true /\
    lo <= charge_time_us result <= hi /\
    1 <= charge_time_us result.
Proof.
  intros Hc Hsum Hne Hbounds.
  pose proof (chargeTimes_post fuel 5 w ts w' Hc) as (_ & Hall & _).
  exists (resultOf ts).
  split.
  { rewrite measureCapacitance_chargeTimes.
    change (Z.to_nat CAP_NUM_SAMPLES) with 5%nat. rewrite Hc. reflexivity. }
  rewrite (resultOf_averaged ts Hsum Hall). unfold averagedResult.
  pose proof (sumZ_bounds lo hi _ Hbounds) as Hlh.
  assert (Hone : Forall (fun t => 1 <= t <= 2 ^ 32) (validTimes ts)).
  { eapply Forall_impl; [|apply validTimes_positive; exact Hall].
    cbn. intros t Ht. lia. }
  pose proof (sumZ_bounds 1 (2 ^ 32) _ Hone) as H1.
  destruct (validTimes ts) as [|t good] eqn:Hv; [contradiction|].
  cbn [valid charge_time_us].
  set (n := Z.of_nat (List.length (t :: good))) in *.
  assert (Hn : 0 < n) by (subst n; cbn [List.length]; lia).
  split; [reflexivity|]. split; [split|].
  - apply Z.div_le_lower_bound; lia.
  - apply Z.div_le_upper_bound; lia.
  - apply Z.div_le_lower_bound; lia.
Qed.

Lemma measureCapacitance_mean_between_witness :
  exists result,
    measureCapacitance 10 mixedSamples
      = Some (result, after (chargeTimes 10 5) mixedSamples) /\
    valid result = true /\
    3000 <= charge_time_us result <= 3102 /\
    1 <= charge_time_us result.
Proof.
  apply (measureCapacitance_mean_between 10 mixedSamples [3000; 0; 3102; 0; 3098]).
  - vm_compute. reflexivity.
  - reflexivity.
  - discriminate.
  - repeat constructor; discriminate.
Defined.

Lemma validTimes_permutation (ts1 ts2 : list Z) :
  Permutation ts1 ts2 -> Permutation (validTimes ts1) (validTimes ts2).
Proof.
  induction 1 as [|t l1 l2 Hp IH|t u l|l1 l2 l3 H12 IH12 H23 IH23]; cbn.
  - constructor.
  - destruct (negb (t =? 0)); [constructor|]; exact IH.
  - destruct (negb (t =? 0)), (negb (u =? 0));
      try apply Permutation_refl; apply perm_swap.
  - eapply Permutation_trans; eassumption.
Qed.

Lemma sumZ_permutation (l1 l2 : list Z) :
  Permutation l1 l2 -> sumZ l1 = sumZ l2.
Proof.
  induction 1 as [|t l1 l2 Hp IH|t u l|l1 l2 l3 H12 IH12 H23 IH23];
    cbn [sumZ fold_right] in *; try fold (sumZ l1) (sumZ l2) in *; lia.
Qed.

(** X12: only the valid samples count, in any order: two measurements
    whose nonzero charge times are the same up to order return the same
    result, wherever their timeouts fall. *)
Theorem measureCapacitance_order_irrelevant
        (fuel1 fuel2 : nat) (w1 w2 : World) (ts1 ts2 : list Z) (w1' w2' : World) :
  chargeTimes fuel1 5 w1 = Some (ts1, w1') ->
  chargeTimes fuel2 5 w2 = Some (ts2, w2') ->
  Permutation (validTimes ts1) (validTimes ts2) ->
  exists result,
    measureCapacitance fuel1 w1 = Some (result, w1') /\
    measureCapacitance fuel2 w2 = Some (result, w2').
Proof.
  intros H1 H2 Hperm. exists (resultOf ts1).
  rewrite !measureCapacitance_chargeTimes.
  change (Z.to_nat CAP_NUM_SAMPLES) with 5%nat. rewrite H1, H2.
  split; [reflexivity|].
  unfold resultOf.
  rewrite (sumZ_permutation _ _ Hperm), (Permutation_length Hperm).
  reflexivity.
Qed.

Lemma measureCapacitance_order_irrelevant_witness :
  exists result,
    measureCapacitance 10 mixedSamples
      = Some (result, after (chargeTimes 10 5) mixedSamples) /\
    measureCapacitance 10
        (scripted [ 0; 10; 3098; 5000; 5010; 8102; 9000; 200000;
                    300000; 300010; 303000; 400000; 600000 ]
                  [ 600; 600; 600 ])
      = Some (result,
              after (chargeTimes 10 5)
                (scripted [ 0; 10; 3098; 5000; 5010; 8102; 9000; 200000;
                            300000; 300010; 303000; 400000; 600000 ]
                          [ 600; 600; 600 ])).
Proof.
  apply (measureCapacitance_order_irrelevant 10 10 mixedSamples _
           [3000; 0; 3102; 0; 3098] [3098; 3102; 0; 3000; 0]).
  - vm_compute. reflexivity.
  - vm_compute. reflexivity.
  - cbn. apply Permutation_sym.
    apply (perm_trans (l' := [3102; 3098; 3000])); [apply perm_swap|].
    apply (perm_trans (l' := [3102; 3000; 3098])); [apply perm_skip, perm_swap|].
    apply perm_swap.
Defined.

(** X13: the sum of the valid times is kept in 32 bits.  The averaged time
    is always the sum modulo 2^32 divided by the number of valid samples;
    when the valid times add up to 2^32 or more it therefore falls short
    of their true mean by at least 2^32 divided by that number. *)
Theorem measureCapacitance_sum_wraps
        (fuel : nat) (w : World) (ts : list Z) (w' : World) :
  chargeTimes fuel 5 w = Some (ts, w') ->
  validTimes ts <> [] ->
  let n := Z.of_nat (List.length (validTimes ts)) in
  exists result,
    measureCapacitance fuel w = Some (result, w') /\
    charge_time_us result = wrap32 (sumZ (validTimes ts)) / n /\
    (2 ^ 32 <= sumZ (validTimes ts) ->
     charge_time_us result <= sumZ (validTimes ts) / n - 2 ^ 32 / n /\
     charge_time_us result < sumZ (validTimes ts) / n).
Proof.
  intros Hc Hne n.
  exists (resultOf ts).
  split.
  { rewrite measureCapacitance_chargeTimes.
    change (Z.to_nat CAP_NUM_SAMPLES) with 5%nat. rewrite Hc. reflexivity. }
  pose proof (validTimes_length ts) as Hlen.
  pose proof (chargeTimes_post fuel 5 w ts w' Hc) as (Hl & _).
  rewrite Hl in Hlen.
  assert (Hn : 0 < n <= 5).
  { subst n. destruct (validTimes ts); [contradiction|]. cbn [List.length] in *. lia. }
  unfold resultOf. cbv zeta. fold n.
  destruct (Z.gtb_spec n 0) as [_|Hbad]; [|lia].
  cbn [charge_time_us]. split; [reflexivity|].
  intros Hover.
  set (S := sumZ (validTimes ts)) in *.
  assert (Hw : wrap32 S <= S - 2 ^ 32).
  { unfold wrap32. pose proof (Z.div_mod S (2 ^ 32) ltac:(lia)) as Hdm.
    assert (1 <= S / 2 ^ 32) by (apply Z.div_le_lower_bound; lia).
    nia. }
  assert (Hstep : (S - 2 ^ 32) / n <= S / n - 2 ^ 32 / n).
  { pose proof (Z.div_mod S n ltac:(lia)) as HS.
    pose proof (Z.div_mod (2 ^ 32) n ltac:(lia)) as HP.
    pose proof (Z.mod_pos_bound S n ltac:(lia)) as HSb.
    pose proof (Z.mod_pos_bound (2 ^ 32) n ltac:(lia)) as HPb.
    apply Z.lt_succ_r. apply Z.div_lt_upper_bound; [lia|]. nia. }
  assert (Hq : 1 <= 2 ^ 32 / n) by (apply Z.div_le_lower_bound; lia).
  assert (Hdiv : wrap32 S / n <= (S - 2 ^ 32) / n) by (apply Z.div_le_mono; lia).
  lia.
Qed.

Lemma measureCapacitance_sum_wraps_witness :
  2 ^ 32 <= sumZ (validTimes [4294967196; 4294967196; 0; 0; 0]) /\
  exists result,
    measureCapacitance 10 wrappingSum
      = Some (result, after (chargeTimes 10 5) wrappingSum) /\
    charge_time_us result = 2147483548 /\
    charge_time_us result <= 4294967196 - 2147483648 /\
    charge_time_us result < 4294967196.
Proof.
  split; [discriminate|].
  destruct (measureCapacitance_sum_wraps 10 wrappingSum
              [4294967196; 4294967196; 0; 0; 0]
              (after (chargeTimes 10 5) wrappingSum))
    as (result & Hm & Htime & Hshort).
  - vm_compute. reflexivity.
  - discriminate.
  - exists result. split; [exact Hm|].
    split; [rewrite Htime; reflexivity|].
    apply Hshort. discriminate.
Defined.

(** ** More about runCapacitanceTest *)

Lemma chargeTimes_frame (fuel n : nat) :
  forall (w : World) (ts : list Z) (w' : World),
    chargeTimes fuel n w = Some (ts, w') ->
    onlyCapPinsChanged (w_pins w) (w_pins w').
Proof.
  induction n as [|n IH]; intros w ts w' H.
  - inversion H; subst. apply onlyCapPinsChanged_refl.
  - rewrite chargeTimes_S in H.
    destruct (measureChargeTime fuel w) as [[t w1]|] eqn:Hm; [|discriminate].
    destruct (chargeTimes fuel n (log (EvDelay 10) w1)) as [[ts0 w2]|] eqn:Hc;
      [|discriminate].
    inversion H; subst; clear H.
    apply measureChargeTime_frame in Hm. destruct Hm as (Hf & _).
    apply IH in Hc. cbn in Hc.
    eapply onlyCapPinsChanged_trans; eassumption.
Qed.

Lemma measureCapacitance_frame
      (fuel : nat) (w : World) (result : CapacitanceResult) (w' : World) :
  measureCapacitance fuel w = Some (result, w') ->
  onlyCapPinsChanged (w_pins w) (w_pins w').
Proof.
  intros H. apply measureCapacitance_post in H.
  destruct H as (ts & Hc & _). eapply chargeTimes_frame. exact Hc.
Qed.

Lemma capModePins_kept (ps ps' : Pins) :
  onlyCapPinsChanged ps ps' -> capModePins ps -> capModePins ps'.
Proof.
  intros [Hd Hl] (H1 & H2 & H3 & H4).
  unfold capModePins.
  rewrite !Hl, !Hd by discriminate. repeat split; assumption.
Qed.

(** The world in which [resetCircuit()] is invoked still has the relays
    as the measurement left them. *)
Lemma leaveCapMode_relays (w : World) :
  exists wm,
    after leaveCapMode w = after resetCircuit wm /\
    contPinsIdle (w_pins wm) /\
    level (w_pins wm) K1_K2_RELAY_PIN = level (w_pins w) K1_K2_RELAY_PIN /\
    level (w_pins wm) K4_RELAY_PIN = level (w_pins w) K4_RELAY_PIN.
Proof.
  exists (after (pinMode TS_CONT_OUT_SLEEVE_PIN OUTPUT ;;
                 digitalWrite TS_CONT_OUT_SLEEVE_PIN LOW ;;
                 pinMode TS_CONT_OUT_TIP_PIN OUTPUT ;;
                 digitalWrite TS_CONT_OUT_TIP_PIN LOW) w).
  split; [reflexivity|]. split; [cbn; repeat split|]. split; reflexivity.
Qed.

(** X14: a capacitance test that ends measured in capacitance mode: the
    relay levels and floating continuity pins set up before the
    measurement are still in place when it ends.  The function never
    releases the relays itself: K1/K2 is still HIGH and K4 LOW in the
    world in which [resetCircuit()] is invoked. *)
Theorem runCapacitanceTest_holds_cap_mode
        (fuel : nat) (w : World) (b : bool) (w' : World) :
  runCapacitanceTest fuel w = Some (b, w') ->
  exists result w1 wm,
    measureCapacitance fuel (after enterCapMode w) = Some (result, w1) /\
    capModePins (w_pins (after enterCapMode w)) /\
    capModePins (w_pins w1) /\
    w' = logged (reportEvents result) (after resetCircuit wm) /\
    level (w_pins wm) K1_K2_RELAY_PIN = HIGH /\
    level (w_pins wm) K4_RELAY_PIN = LOW.
Proof.
  intros H. rewrite runCapacitanceTest_phases in H.
  destruct (measureCapacitance fuel (after enterCapMode w))
    as [[result w1]|] eqn:Hm; [|discriminate].
  inversion H; subst; clear H.
  assert (Henter : capModePins (w_pins (after enterCapMode w))).
  { cbn. repeat split. }
  assert (Hend : capModePins (w_pins w1)).
  { eapply capModePins_kept; [|exact Henter].
    eapply measureCapacitance_frame. exact Hm. }
  destruct (leaveCapMode_relays w1) as (wm & Hleave & _ & Hk1 & Hk4).
  exists result, w1, wm.
  split; [reflexivity|]. split; [exact Henter|]. split; [exact Hend|].
  split; [rewrite Hleave; reflexivity|].
  destruct Hend as (H1 & H2 & _). split; congruence.
Qed.

Lemma runCapacitanceTest_holds_cap_mode_witness :
  exists result w1 wm,
    measureCapacitance 10 (after enterCapMode mixedSamples) = Some (result, w1) /\
    capModePins (w_pins (after enterCapMode mixedSamples)) /\
    capModePins (w_pins w1) /\
    after (runCapacitanceTest 10) mixedSamples
      = logged (reportEvents result) (after resetCircuit wm) /\
    level (w_pins wm) K1_K2_RELAY_PIN = HIGH /\
    level (w_pins wm) K4_RELAY_PIN = LOW.
Proof.
  apply (runCapacitanceTest_holds_cap_mode 10 mixedSamples true).
  vm_compute. reflexivity.
Defined.

Lemma firstn_prefix {A : Type} (l r : list A) :
  firstn (List.length l) (l ++ r) = l.
Proof. induction l as [|x l IH]; cbn; [reflexivity|]. rewrite IH. reflexivity. Qed.

(** X15: the test and the calibration measure alike: started at the same
    point of the clock and ADC readings, whatever the pins and the serial
    history, the calibration ends whenever the test does, and reports on
    the very measurement result the test's verdict and report come from. *)
Theorem test_and_calibration_measure_alike
        (fuel : nat) (w1 w2 : World) (b : bool) (w1' : World) :
  sameOracle w1 w2 ->
  runCapacitanceTest fuel w1 = Some (b, w1') ->
  exists result w2',
    calibrateStrayCapacitance fuel w2 = Some (tt, w2') /\
    b = testVerdict result /\
    firstn (List.length (reportEvents result)) (w_trace w1') = reportEvents result /\
    firstn (List.length (calibrationEvents result)) (w_trace w2')
      = calibrationEvents result /\
    sameOracle w1' w2'.
Proof.
  intros Hsame H. rewrite runCapacitanceTest_phases in H.
  destruct (measureCapacitance fuel (after enterCapMode w1))
    as [[result u1]|] eqn:Hm; [|discriminate].
  inversion H; subst; clear H.
  destruct (measureCapacitance_sameOracle fuel (after enterCapMode w1)
              (after enterCapMode
                 (logged [ EvDelay 2000;
                           EvPrintln (PStr "CAP_CAL:Ensure NO cable is connected");
                           EvPrintln (PStr "CAP_CAL:Starting stray capacitance calibration") ]
                         w2))
              result u1) as (u2 & Hm2 & Hsu).
  - destruct Hsame as (He & Hc & Ha). split; [|split]; cbn; assumption.
  - exact Hm.
  - exists result. eexists. split.
    + rewrite calibrateStrayCapacitance_phases, Hm2. reflexivity.
    + split; [reflexivity|].
      split; [cbn [logged w_trace]; apply firstn_prefix|].
      split; [cbn [logged w_trace]; apply firstn_prefix|].
      destruct Hsu as (He & Hc & Ha). split; [|split]; cbn; assumption.
Qed.

Lemma test_and_calibration_measure_alike_witness :
  exists result w2',
    calibrateStrayCapacitance 10 mixedSamples = Some (tt, w2') /\
    true = testVerdict result /\
    firstn (List.length (reportEvents result))
           (w_trace (after (runCapacitanceTest 10) mixedSamples))
      = reportEvents result /\
    firstn (List.length (calibrationEvents result)) (w_trace w2')
      = calibrationEvents result /\
    sameOracle (after (runCapacitanceTest 10) mixedSamples) w2'.
Proof.
  apply (test_and_calibration_measure_alike 10 mixedSamples mixedSamples true).
  - apply sameOracle_refl.
  - vm_compute. reflexivity.
Defined.

(** X16: the return value and the report agree.  A test that ends prints,
    after the reset, one line (a single println, printed last); it returns
    true exactly when that line carries PASS, and false whenever it
    carries WARN or is the FAIL:TIMEOUT line. *)
Theorem runCapacitanceTest_report_matches_verdict
        (fuel : nat) (w : World) (b : bool) (w' : World) :
  runCapacitanceTest fuel w = Some (b, w') ->
  exists reports rest,
    w_trace w' = reports ++ EvReset :: rest /\
    forallb isReport reports = true /\
    printlns reports = 1%nat /\
    (exists x more, reports = EvPrintln x :: more) /\
    (b = true <-> In (EvPrint (PStr "PASS")) reports) /\
    (In (EvPrint (PStr "WARN")) reports \/
     In (EvPrintln (PStr "CAP:FAIL:TIMEOUT:No charge detected")) reports ->
     b = false).
Proof.
  intros H. apply runCapacitanceTest_inv in H.
  destruct H as (result & wm & quiet & Hb & Hw' & _).
  exists (reportEvents result), (w_trace wm).
  subst b w'. split; [reflexivity|].
  unfold reportEvents, testVerdict.
  destruct (valid result); cbn [negb].
  - destruct (inRangePf (capacitance_pf result)); cbn.
    + split; [reflexivity|]. split; [reflexivity|].
      split; [eexists; eexists; reflexivity|].
      split; [split; [tauto|reflexivity]|].
      intros [Hin|Hin]; repeat (destruct Hin as [Hin|Hin]; [discriminate|]);
        contradiction.
    + split; [reflexivity|]. split; [reflexivity|].
      split; [eexists; eexists; reflexivity|].
      split; [|reflexivity].
      split; [discriminate|].
      intros Hin; repeat (destruct Hin as [Hin|Hin]; [discriminate|]);
        contradiction.
  - cbn. split; [reflexivity|]. split; [reflexivity|].
    split; [eexists; eexists; reflexivity|].
    split; [|reflexivity].
    split; [discriminate|].
    intros [Hin|[]]. discriminate.
Qed.

Lemma runCapacitanceTest_report_matches_verdict_witness :
  exists reports rest,
    w_trace (after (runCapacitanceTest 10) mixedSamples)
      = reports ++ EvReset :: rest /\
    forallb isReport reports = true /\
    printlns reports = 1%nat /\
    (exists x more, reports = EvPrintln x :: more) /\
    (true = true <-> In (EvPrint (PStr "PASS")) reports) /\
    (In (EvPrint (PStr "WARN")) reports \/
     In (EvPrintln (PStr "CAP:FAIL:TIMEOUT:No charge detected")) reports ->
     true = false).
Proof.
  apply (runCapacitanceTest_report_matches_verdict 10 mixedSamples true).
  vm_compute. reflexivity.
Defined.

(** X17: the test passes on time alone: once the measurement has ended
    with some result, [runCapacitanceTest] returns true exactly when the
    result is valid and its averaged charge time lies between 107 and
    3079 microseconds. *)
Theorem runCapacitanceTest_pass_window
        (fuel : nat) (w : World) (result : CapacitanceResult) (w1 : World) :
  measureCapacitance fuel (after enterCapMode w) = Some (result, w1) ->
  exists b w',
    runCapacitanceTest fuel w = Some (b, w') /\
    (b = true <->
     valid result = true /\ 107 <= charge_time_us result <= 3079).
Proof.
  intros Hm.
  exists (testVerdict result). eexists.
  split; [rewrite runCapacitanceTest_phases, Hm; reflexivity|].
  pose proof (measureCapacitance_post _ _ _ _ Hm) as (ts & _ & Hres & _).
  unfold testVerdict. destruct (valid result) eqn:Hv; cbn [negb].
  - subst result. rewrite (resultOf_capacitance ts Hv).
    assert (Hnn : 0 <= charge_time_us (resultOf ts)).
    { unfold resultOf. cbv zeta.
      destruct (Z.gtb_spec (Z.of_nat (List.length (validTimes ts))) 0);
        cbn [charge_time_us]; [|lia].
      pose proof (wrap32_range (sumZ (validTimes ts))) as Hs. unfold u32 in Hs.
      apply Z.div_pos; lia. }
    rewrite (inRangePf_window _ Hnn). tauto.
  - split; [discriminate|]. intros [Hbad _]. discriminate.
Qed.

Lemma runCapacitanceTest_pass_window_witness :
  exists b w',
    runCapacitanceTest 10 mixedSamples = Some (b, w') /\
    (b = true <-> true = true /\ 107 <= 3066 <= 3079).
Proof.
  apply (runCapacitanceTest_pass_window 10 mixedSamples
           (mkResult true (calculateCapacitance 3066) 3066 3)
           (after (measureCapacitance 10) (after enterCapMode mixedSamples))).
  vm_compute. reflexivity.
Defined.

Lemma calibrateStrayCapacitance_returns (fuel : nat) (w : World) :
  cyclesEnd (w_env w) fuel ->
  exists w', calibrateStrayCapacitance fuel w = Some (tt, w').
Proof.
  intros Hlive.
  rewrite calibrateStrayCapacitance_phases, measureCapacitance_chargeTimes.
  match goal with |- context [chargeTimes fuel ?n ?u] =>
    destruct (chargeTimes_returns fuel n u Hlive) as (ts & w1 & Hc)
  end.
  rewrite Hc. eexists. reflexivity.
Qed.

(** X18: the test and the calibration end.  If from every point of the
    readings on, within [fuel] turns of the poll loop the clock reaches the
    cycle's deadline or the sense pin the threshold, then
    [runCapacitanceTest] and [calibrateStrayCapacitance] both return. *)
Theorem capacitance_runs_end (fuel : nat) (w : World) :
  cyclesEnd (w_env w) fuel ->
  (exists b w', runCapacitanceTest fuel w = Some (b, w')) /\
  (exists w', calibrateStrayCapacitance fuel w = Some (tt, w')).
Proof.
  intros Hlive. split.
  - apply runCapacitanceTest_returns. exact Hlive.
  - apply calibrateStrayCapacitance_returns. exact Hlive.
Qed.

Lemma capacitance_runs_end_witness :
  (exists b w', runCapacitanceTest 1 (crossingAfter 3000) = Some (b, w')) /\
  (exists w', calibrateStrayCapacitance 1 (crossingAfter 3000) = Some (tt, w')).
Proof.
  apply (capacitance_runs_end 1 (crossingAfter 3000)).
  intros c a. exists 0%nat. split; [lia|]. right. cbn. discriminate.
Defined.

(** ** More about calibrateStrayCapacitance *)

Lemma emitted_clamped (t : Z) :
  0 <= t ->
  (calculateCapacitance t + CAP_STRAY_PF == Qmax 20 (rawCapacitancePf t))%Q.
Proof.
  intros Ht. destruct (Z.eq_dec t 0) as [->|Hnz]; [Qconst|].
  apply emitted_is_clamped_raw. exact Hnz.
Qed.

Lemma resultOf_time_nonneg (ts : list Z) : 0 <= charge_time_us (resultOf ts).
Proof.
  unfold resultOf. cbv zeta.
  destruct (Z.gtb_spec (Z.of_nat (List.length (validTimes ts))) 0);
    cbn [charge_time_us]; [|lia].
  pose proof (wrap32_range (sumZ (validTimes ts))) as Hs. unfold u32 in Hs.
  apply Z.div_pos; lia.
Qed.

(** Every calibration that ends went through the same phases as the
    test. *)
Lemma calibrateStrayCapacitance_inv (fuel : nat) (w w' : World) :
  calibrateStrayCapacitance fuel w = Some (tt, w') ->
  exists ts wm quiet,
    w' = logged (calibrationEvents (resultOf ts)) (after resetCircuit wm) /\
    capPinsIdle (w_pins wm) /\
    contPinsIdle (w_pins wm) /\
    w_trace wm =
      quiet ++
      [ EvDelay 2000;
        EvPrintln (PStr "CAP_CAL:Ensure NO cable is connected");
        EvPrintln (PStr "CAP_CAL:Starting stray capacitance calibration") ]
      ++ w_trace w /\
    forallb isQuiet quiet = true.
Proof.
  intros H. rewrite calibrateStrayCapacitance_phases in H.
  destruct (measureCapacitance fuel _) as [[result w1]|] eqn:Hm; [|discriminate].
  inversion H; subst; clear H.
  apply measureCapacitance_post in Hm.
  destruct Hm as (ts & _ & Hres & _ & _ & (_ & added & Htr & Hq & _) & Hidle).
  destruct (leaveCapMode_reset w1) as (wm & Hleave & _ & Hcont & Hcap & Htrm).
  exists ts, wm.
  exists ([ EvWrite TS_CONT_OUT_TIP_PIN LOW; EvPinMode TS_CONT_OUT_TIP_PIN OUTPUT;
            EvWrite TS_CONT_OUT_SLEEVE_PIN LOW;
            EvPinMode TS_CONT_OUT_SLEEVE_PIN OUTPUT ]
          ++ added ++
          [ EvDelay 20; EvPinMode TS_CONT_OUT_TIP_PIN INPUT;
            EvPinMode TS_CONT_OUT_SLEEVE_PIN INPUT;
            EvWrite K4_RELAY_PIN LOW; EvWrite K1_K2_RELAY_PIN HIGH ]).
  split; [rewrite Hleave, Hres; reflexivity|].
  split; [exact (Hcap Hidle)|]. split; [exact Hcont|].
  split.
  - rewrite Htrm, Htr. cbn. rewrite <- !app_assoc. reflexivity.
  - rewrite !forallb_app, Hq. reflexivity.
Qed.

(** X19: whatever the fixture, once the measurement of a calibration has
    ended with some result, the calibration returns after printing the
    report of that result; for a valid result the value it emits is
    max(20, raw) pF, raw being the raw capacitance of the result's averaged
    charge time: never less than the 20 pF offset it was compiled with,
    and the raw capacitance itself as soon as the averaged time is at
    least 31 microseconds. *)
Theorem calibrateStrayCapacitance_emits_clamped_raw
        (fuel : nat) (w : World) (result : CapacitanceResult) (w1 : World) :
  measureCapacitance fuel (after enterCapMode (announced w)) = Some (result, w1) ->
  calibrateStrayCapacitance fuel w
    = Some (tt, logged (calibrationEvents result) (after leaveCapMode w1)) /\
  (valid result = true ->
   calibrationEvents result =
     [ EvPrintln (PStr " in capacitance.h");
       EvPrint (PFloat (emittedStrayPf result) 0);
       EvPrint (PStr "CAP_CAL:Update CAP_STRAY_PF to ");
       EvPrintln (PStr " pF");
       EvPrint (PFloat (emittedStrayPf result) 1);
       EvPrint (PStr "CAP_CAL:Measured stray capacitance: ") ] /\
   (emittedStrayPf result
    == Qmax 20 (rawCapacitancePf (charge_time_us result)))%Q /\
   (20 <= emittedStrayPf result)%Q /\
   (31 <= charge_time_us result ->
    (emittedStrayPf result == rawCapacitancePf (charge_time_us result))%Q)).
Proof.
  intros Hm. split.
  - rewrite calibrateStrayCapacitance_phases.
    change (logged _ w) with (announced w). rewrite Hm. reflexivity.
  - intros Hv.
    apply measureCapacitance_post in Hm. destruct Hm as (ts & _ & Hres & _).
    subst result.
    split; [unfold calibrationEvents; rewrite Hv; reflexivity|].
    unfold emittedStrayPf. rewrite (resultOf_capacitance ts Hv).
    split; [apply emitted_clamped, resultOf_time_nonneg|].
    split.
    + rewrite emitted_clamped by apply resultOf_time_nonneg. apply Q.le_max_l.
    + apply calibration_roundtrip.
Qed.

Lemma calibrateStrayCapacitance_emits_clamped_raw_witness :
  let result := mkResult true (calculateCapacitance 3066) 3066 3 in
  calibrateStrayCapacitance 10 mixedSamples
    = Some (tt, logged (calibrationEvents result)
                  (after leaveCapMode
                     (after (measureCapacitance 10)
                            (after enterCapMode (announced mixedSamples))))) /\
  (emittedStrayPf result == rawCapacitancePf 3066)%Q /\
  (20 <= emittedStrayPf result)%Q.
Proof.
  destruct (calibrateStrayCapacitance_emits_clamped_raw 10 mixedSamples
              (mkResult true (calculateCapacitance 3066) 3066 3)
              (after (measureCapacitance 10)
                     (after enterCapMode (announced mixedSamples))))
    as (Hrun & Hvalid).
  - vm_compute. reflexivity.
  - destruct (Hvalid eq_refl) as (_ & _ & Hge & Hraw).
    split; [exact Hrun|]. split; [apply Hraw; discriminate|exact Hge].
Defined.

(** X20: a calibration that ends has, in this order: announced itself in
    two lines and waited 2 s; measured without printing; restored the
    capacitance and continuity pins; invoked [resetCircuit()]; and only
    then printed its reading, or, with no valid sample, the single line
    CAP_CAL:FAILED - Could not measure. *)
Theorem calibrateStrayCapacitance_sequence (fuel : nat) (w w' : World) :
  calibrateStrayCapacitance fuel w = Some (tt, w') ->
  exists result wm quiet,
    w' = logged (calibrationEvents result) (after resetCircuit wm) /\
    capPinsIdle (w_pins wm) /\
    contPinsIdle (w_pins wm) /\
    w_trace wm =
      quiet ++
      [ EvDelay 2000;
        EvPrintln (PStr "CAP_CAL:Ensure NO cable is connected");
        EvPrintln (PStr "CAP_CAL:Starting stray capacitance calibration") ]
      ++ w_trace w /\
    forallb isQuiet quiet = true /\
    forallb isReport (calibrationEvents result) = true /\
    (valid result = false ->
     calibrationEvents result
     = [ EvPrintln (PStr "CAP_CAL:FAILED - Could not measure") ]).
Proof.
  intros H. apply calibrateStrayCapacitance_inv in H.
  destruct H as (ts & wm & quiet & Hw' & Hcap & Hcont & Htr & Hq).
  exists (resultOf ts), wm, quiet.
  repeat (split; [assumption|]).
  unfold calibrationEvents.
  destruct (valid (resultOf ts)); split; try reflexivity; discriminate.
Qed.

Lemma calibrateStrayCapacitance_sequence_witness :
  exists result wm quiet,
    after (calibrateStrayCapacitance 10) openCircuit
      = logged (calibrationEvents result) (after resetCircuit wm) /\
    capPinsIdle (w_pins wm) /\
    contPinsIdle (w_pins wm) /\
    w_trace wm =
      quiet ++
      [ EvDelay 2000;
        EvPrintln (PStr "CAP_CAL:Ensure NO cable is connected");
        EvPrintln (PStr "CAP_CAL:Starting stray capacitance calibration") ]
      ++ w_trace openCircuit /\
    forallb isQuiet quiet = true /\
    forallb isReport (calibrationEvents result) = true /\
    (valid result = false ->
     calibrationEvents result
     = [ EvPrintln (PStr "CAP_CAL:FAILED - Could not measure") ]).
Proof.
  apply (calibrateStrayCapacitance_sequence 10 openCircuit).
  vm_compute. reflexivity.
Defined.

(** ** setupCapacitancePins and dischargeCable *)

(** X21: [dischargeCable] writes levels only, so it pulls the cable to
    ground exactly when the discharge pin is already an OUTPUT.  That is
    the case after [setupCapacitancePins], from any state and without
    touching another pin, and after every [measureChargeTime] call that
    ends: each cycle but possibly the first starts from a discharging
    fixture. *)
Theorem discharge_needs_output_pin (w : World) :
  (capPinsIdle (w_pins (after dischargeCable w)) <->
   dir (w_pins w) CAP_DISCHARGE_PIN = OUTPUT) /\
  (forall p, dir (w_pins (after dischargeCable w)) p = dir (w_pins w) p) /\
  capPinsIdle (w_pins (after setupCapacitancePins w)) /\
  dir (w_pins (after setupCapacitancePins w)) CAP_CHARGE_PIN = OUTPUT /\
  onlyCapPinsChanged
    (set_dir CAP_CHARGE_PIN OUTPUT (w_pins w))
    (w_pins (after setupCapacitancePins w)) /\
  capPinsIdle (w_pins (after dischargeCable (after setupCapacitancePins w))) /\
  (forall fuel r w1,
     measureChargeTime fuel w = Some (r, w1) ->
     capPinsIdle (w_pins (after dischargeCable w1))).
Proof.
  split; [|split; [|split; [|split; [|split; [|split]]]]].
  - cbn. unfold capPinsIdle. cbn. tauto.
  - intros p. reflexivity.
  - cbn. repeat split.
  - reflexivity.
  - split; intros p; cbn.
    + intros Hp. destruct (Pin_eq_dec p CAP_DISCHARGE_PIN); [contradiction|].
      reflexivity.
    + intros Hc Hd.
      destruct (Pin_eq_dec p CAP_DISCHARGE_PIN); [contradiction|].
      destruct (Pin_eq_dec p CAP_CHARGE_PIN); [contradiction|reflexivity].
  - cbn. repeat split.
  - intros fuel r w1 H. apply measureChargeTime_post in H.
    destruct H as ((_ & Hd & _) & _). cbn. unfold capPinsIdle. cbn. tauto.
Qed.

Lemma discharge_needs_output_pin_witness :
  capPinsIdle
    (w_pins (after dischargeCable (after (measureChargeTime 1) instantCrossing))).
Proof.
  apply (proj2 (proj2 (proj2 (proj2 (proj2 (proj2
           (discharge_needs_output_pin instantCrossing)))))) 1%nat 0).
  vm_compute. reflexivity.
Defined.

(** ** Every call is a timeout or a crossing *)

Lemma pollLoop_exit (fuel : nat) :
  forall (s t : Z) (w : World) (r : Z) (w' : World),
    pollLoop fuel s t w = Some (r, w') ->
    exists k,
      (k < fuel)%nat /\
      pollsBelow (w_env w) (w_clk w) (w_adc w) t k /\
      ((t <= wrap32 (env_micros (w_env w) (w_clk w + k)) /\
        r = 0 /\
        w_adc w' = (w_adc w + k)%nat) \/
       (wrap32 (env_micros (w_env w) (w_clk w + k)) < t /\
        CAP_ADC_THRESHOLD <= env_adc (w_env w) (w_adc w + k) /\
        r = elapsedUs s (wrap32 (env_micros (w_env w) (w_clk w + k + 1))) /\
        w_adc w' = (w_adc w + k + 1)%nat)).
Proof.
  induction fuel as [|fuel IH]; intros s t w r w' H; [discriminate|].
  cbn in H.
  destruct (Z.ltb_spec (wrap32 (env_micros (w_env w) (w_clk w))) t) as [Hlt|Hge].
  - cbn in H.
    destruct (env_adc (w_env w) (w_adc w) >=? CAP_ADC_THRESHOLD) eqn:Hth.
    + cbn in H. inversion H; subst; clear H.
      exists 0%nat. split; [lia|]. split; [intros j Hj; lia|].
      right. rewrite !Nat.add_0_r. rewrite Z.geb_leb in Hth. apply Z.leb_le in Hth.
      split; [exact Hlt|]. split; [exact Hth|].
      split; [rewrite Nat.add_1_r; reflexivity|cbn; lia].
    + apply IH in H. cbn in H.
      destruct H as (k & Hk & Hbelow & Hexit).
      rewrite Z.geb_leb in Hth. apply Z.leb_gt in Hth.
      exists (S k). split; [lia|]. split.
      * intros j Hj. destruct j as [|j].
        -- rewrite !Nat.add_0_r. split; assumption.
        -- rewrite !Nat.add_succ_r. apply (Hbelow j). lia.
      * cbn in Hexit.
        replace (w_clk w + S k)%nat with (S (w_clk w + k)) by lia.
        replace (w_adc w + S k)%nat with (S (w_adc w + k)) by lia.
        replace (S (w_clk w + k) + 1)%nat with (S (w_clk w + k + 1)) by lia.
        destruct Hexit as [(H1 & H2 & H3)|(H1 & H2 & H3 & H4)].
        -- left. split; [exact H1|]. split; [exact H2|]. lia.
        -- right. split; [exact H1|]. split; [exact H2|].
           split; [exact H3|]. lia.
  - cbn in H. inversion H; subst; clear H.
    exists 0%nat. split; [lia|]. split; [intros j Hj; lia|].
    left. rewrite !Nat.add_0_r. split; [exact Hge|]. split; [reflexivity|cbn; lia].
Qed.

(** X22: every [measureChargeTime] call that ends is a timeout or a
    crossing at some turn [k] of its loop: before turn [k] the clock was
    below the deadline and the sense pin below 512 at every turn; then
    either the clock had reached the deadline and the call returned 0
    after [k] conversions, or conversion [k] read 512 or more before the
    deadline and the call returned the 32-bit time from the start
    timestamp to the clock reading that followed. *)
Theorem measureChargeTime_exit_cases (fuel : nat) (w : World) (r : Z) (w' : World) :
  measureChargeTime fuel w = Some (r, w') ->
  let s := wrap32 (env_micros (w_env w) (w_clk w)) in
  let t := wrap32 (s + CAP_TIMEOUT_US) in
  let reading j := wrap32 (env_micros (w_env w) (S (w_clk w) + j)) in
  exists k,
    (k < fuel)%nat /\
    pollsBelow (w_env w) (S (w_clk w)) (w_adc w) t k /\
    ((t <= reading k /\ r = 0 /\ w_adc w' = (w_adc w + k)%nat) \/
     (reading k < t /\
      CAP_ADC_THRESHOLD <= env_adc (w_env w) (w_adc w + k) /\
      r = elapsedUs s (reading (k + 1)%nat) /\
      w_adc w' = (w_adc w + k + 1)%nat)).
Proof.
  intros H s t reading.
  destruct (measureChargeTime_unfold fuel w) as (w0 & He & Hc & Ha & _ & Heq).
  rewrite Heq in H. fold s in H. fold t in H.
  apply pollLoop_exit in H. rewrite He, Hc, Ha in H.
  destruct H as (k & Hk & Hbelow & Hexit).
  exists k. split; [exact Hk|]. split; [exact Hbelow|].
  unfold reading. rewrite Nat.add_assoc. exact Hexit.
Qed.

Lemma measureChargeTime_exit_cases_witness :
  exists k,
    (k < 2)%nat /\
    pollsBelow (w_env (scripted [1000; 1100; 1200; 1312] [10; 600])) 1 0
               101000 k /\
    ((101000 <= wrap32 (nth (1 + k) [1000; 1100; 1200; 1312] 0) /\ 312 = 0 /\
      w_adc (after (measureChargeTime 2)
                   (scripted [1000; 1100; 1200; 1312] [10; 600])) = (0 + k)%nat) \/
     (wrap32 (nth (1 + k) [1000; 1100; 1200; 1312] 0) < 101000 /\
      CAP_ADC_THRESHOLD <= nth (0 + k) [10; 600] 0 /\
      312 = elapsedUs 1000 (wrap32 (nth (1 + (k + 1)) [1000; 1100; 1200; 1312] 0)) /\
      w_adc (after (measureChargeTime 2)
                   (scripted [1000; 1100; 1200; 1312] [10; 600])) = (0 + k + 1)%nat)).
Proof.
  apply (measureChargeTime_exit_cases 2
           (scripted [1000; 1100; 1200; 1312] [10; 600]) 312).
  vm_compute. reflexivity.
Defined.

Lemma pollLoop_polls (fuel : nat) :
  forall (s t : Z) (w : World) (r : Z) (w' : World),
    pollLoop fuel s t w = Some (r, w') ->
    exists polls,
      w_trace w' = stopEvents ++ polls ++ w_trace w /\
      forallb isPoll polls = true /\
      polls <> [].
Proof.
  induction fuel as [|fuel IH]; intros s t w r w' H; [discriminate|].
  cbn in H.
  destruct (wrap32 (env_micros (w_env w) (w_clk w)) <? t).
  - cbn in H.
    destruct (env_adc (w_env w) (w_adc w) >=? CAP_ADC_THRESHOLD).
    + cbn in H. inversion H; subst; clear H. cbn.
      eexists [_; _; _]. split; [reflexivity|]. split; [reflexivity|discriminate].
    + apply IH in H. cbn in H. destruct H as (polls & Htr & Hpolls & _).
      exists (polls ++ [EvRead CAP_SENSE_PIN (env_adc (w_env w) (w_adc w));
                        EvMicros (wrap32 (env_micros (w_env w) (w_clk w)))]).
      split; [rewrite Htr, <- app_assoc; reflexivity|].
      split; [rewrite forallb_app, Hpolls; reflexivity|].
      intros Hnil. apply app_eq_nil in Hnil. destruct Hnil as [_ Hnil]. discriminate.
  - cbn in H. inversion H; subst; clear H. cbn.
    exists [EvMicros (wrap32 (env_micros (w_env w) (w_clk w)))].
    split; [reflexivity|]. split; [reflexivity|discriminate].
Qed.

(** X23: what a [measureChargeTime] call that ends has done, in order:
    charge pin LOW, discharge pin LOW, a 10 ms pause, discharge pin to
    INPUT, the start timestamp, charge pin HIGH; then nothing but clock
    readings and conversions of the sense pin, at least one clock reading;
    then charge pin LOW, discharge pin to OUTPUT, discharge pin LOW. *)
Theorem measureChargeTime_sequence (fuel : nat) (w : World) (r : Z) (w' : World) :
  measureChargeTime fuel w = Some (r, w') ->
  exists polls,
    w_trace w' =
      stopEvents ++ polls
      ++ chargeStartEvents (wrap32 (env_micros (w_env w) (w_clk w)))
      ++ w_trace w /\
    forallb isPoll polls = true /\
    polls <> [].
Proof.
  intros H.
  destruct (measureChargeTime_unfold fuel w) as (w0 & _ & _ & _ & Htr0 & Heq).
  rewrite Heq in H. apply pollLoop_polls in H.
  destruct H as (polls & Htr & Hpolls & Hne).
  exists polls. split; [rewrite Htr, Htr0; reflexivity|].
  split; assumption.
Qed.

Lemma measureChargeTime_sequence_witness :
  exists polls,
    w_trace (after (measureChargeTime 1) instantCrossing) =
      stopEvents ++ polls ++ chargeStartEvents 1000 ++ w_trace instantCrossing /\
    forallb isPoll polls = true /\
    polls <> [].
Proof.
  apply (measureChargeTime_sequence 1 instantCrossing 0).
  vm_compute. reflexivity.
Defined.
